(** * CTF: CCSDS secondary headers and the cFS time manager

    A shallow embedding of

    - [plugins/ccsds_plugin/cfe/ccsds_secondary_header.py]: the two
      [ctypes.BigEndianStructure] declarations shared by CCSDS V1 and V2, and
    - [plugins/cfs/cfs_time_manager.py]: the polling [wait] loop of
      [CfsTimeManager],

    followed by the properties established about them. *)

From Stdlib Require Import ZArith QArith Qround List String Bool Lia Lqa.
From Stdlib Require Import Strings.Byte.
Import ListNotations.

Local Open Scope Z_scope.

(* ===================================================================== *)
(** * The [ctypes] fragment the headers rely on *)
(* ===================================================================== *)

Module Ctypes.

(** The unsigned integer types that occur in the [_fields_] lists. *)
Inductive ctype : Type := c_uint8 | c_uint16 | c_uint32.

Definition sizeof (t : ctype) : nat :=
  match t with
  | c_uint8 => 1
  | c_uint16 => 2
  | c_uint32 => 4
  end.

(** A [_fields_] entry: attribute name and type. *)
Definition field : Type := (string * ctype)%type.

(** [_pack_ = n] caps the alignment of every field at [n]; the natural
    alignment of an unsigned integer is its size. *)
Definition alignment (pack : nat) (t : ctype) : nat := Nat.min pack (sizeof t).

Definition round_up (off align : nat) : nat :=
  match align with
  | O => off
  | _ => ((off + align - 1) / align * align)%nat
  end.

(** Offsets of the fields in declaration order, starting at [off]. *)
Fixpoint layout_from (pack off : nat) (fs : list field)
  : list (string * (nat * ctype)) :=
  match fs with
  | [] => []
  | (name, t) :: rest =>
      let o := round_up off (alignment pack t) in
      (name, (o, t)) :: layout_from pack (o + sizeof t)%nat rest
  end.

Definition layout (pack : nat) (fs : list field) := layout_from pack 0 fs.

Fixpoint end_offset (pack off : nat) (fs : list field) : nat :=
  match fs with
  | [] => off
  | (_, t) :: rest =>
      end_offset pack (round_up off (alignment pack t) + sizeof t)%nat rest
  end.

Definition struct_alignment (pack : nat) (fs : list field) : nat :=
  fold_right (fun f a => Nat.max (alignment pack (snd f)) a) 1%nat fs.

(** [ctypes.sizeof(cls)]: the end of the last field, rounded up to the
    alignment of the structure. *)
Definition struct_size (pack : nat) (fs : list field) : nat :=
  round_up (end_offset pack 0 fs) (struct_alignment pack fs).

Fixpoint find_field (name : string) (l : list (string * (nat * ctype)))
  : option (nat * ctype) :=
  match l with
  | [] => None
  | (n, d) :: rest => if String.eqb n name then Some d else find_field name rest
  end.

(** ** Bytes *)

Definition Z_of_byte (b : byte) : Z := Z.of_N (Byte.to_N b).

(** The low eight bits of an integer, as a byte. *)
Definition byte_of_Z (z : Z) : byte :=
  match Byte.of_N (Z.to_N (z mod 256)) with
  | Some b => b
  | None => x00
  end.

(** Big-endian store of the low [8 * n] bits of [v]: the most significant
    byte comes first.  Bits above the field width are dropped, which is the
    unchecked conversion [ctypes] applies to integer fields. *)
Fixpoint be_bytes (n : nat) (v : Z) : list byte :=
  match n with
  | O => []
  | S k => byte_of_Z (Z.shiftr v (8 * Z.of_nat k)) :: be_bytes k v
  end.

(** Big-endian load. *)
Definition be_value (bs : list byte) : Z :=
  fold_left (fun acc b => acc * 256 + Z_of_byte b) bs 0.

(** Overwrite [length bs] bytes of [buf] at offset [off]. *)
Definition splice (buf : list byte) (off : nat) (bs : list byte) : list byte :=
  (firstn off buf ++ bs ++ skipn (off + List.length bs) buf)%list.

(** ** Structure instances

    An instance of a [BigEndianStructure] subclass owns a buffer of
    [struct_size] bytes; attribute access reads and writes that buffer. *)

Section Structure.

Variable pack : nat.
Variable fields : list field.

Definition new_buffer : list byte := repeat x00 (struct_size pack fields).

Definition getattr (buf : list byte) (name : string) : Z :=
  match find_field name (layout pack fields) with
  | Some (off, t) => be_value (firstn (sizeof t) (skipn off buf))
  | None => 0
  end.

Definition setattr (buf : list byte) (name : string) (v : Z) : list byte :=
  match find_field name (layout pack fields) with
  | Some (off, t) => splice buf off (be_bytes (sizeof t) v)
  | None => buf
  end.

(** [cls.from_buffer_copy(source)]: [ValueError] when the source is
    shorter than the structure, otherwise a copy of its first
    [struct_size] bytes. *)
Definition from_buffer_copy (source : list byte) : option (list byte) :=
  if (List.length source <? struct_size pack fields)%nat then None
  else Some (firstn (struct_size pack fields) source).

End Structure.

End Ctypes.

(* ===================================================================== *)
(** * [ccsds_secondary_header.py] *)
(* ===================================================================== *)

Module Ccsds.

Import Ctypes.
Local Open Scope string_scope.

(** ** [class CcsdsSecondaryCmdHeader(ctypes.BigEndianStructure)] *)

Record CcsdsSecondaryCmdHeader : Type := CmdHeader { cmd_buffer : list byte }.

Definition cmd_pack : nat := 1.
Definition cmd_fields : list field :=
  [ ("function_code", c_uint8);
    ("checksum", c_uint8) ].

Definition new_cmd : CcsdsSecondaryCmdHeader :=
  CmdHeader (new_buffer cmd_pack cmd_fields).

Definition set_function_code (self : CcsdsSecondaryCmdHeader) (function_code : Z)
  : CcsdsSecondaryCmdHeader :=
  CmdHeader (setattr cmd_pack cmd_fields (cmd_buffer self) "function_code" function_code).

Definition set_checksum (self : CcsdsSecondaryCmdHeader) (checksum : Z)
  : CcsdsSecondaryCmdHeader :=
  CmdHeader (setattr cmd_pack cmd_fields (cmd_buffer self) "checksum" checksum).

Definition get_function_code (self : CcsdsSecondaryCmdHeader) : Z :=
  getattr cmd_pack cmd_fields (cmd_buffer self) "function_code".

Definition get_checksum (self : CcsdsSecondaryCmdHeader) : Z :=
  getattr cmd_pack cmd_fields (cmd_buffer self) "checksum".

(** An instance always owns a buffer of the size of its class. *)
Definition cmd_instance (h : CcsdsSecondaryCmdHeader) : Prop :=
  List.length (cmd_buffer h) = struct_size cmd_pack cmd_fields.

(** [bytes(header)] and [CcsdsSecondaryCmdHeader.from_buffer_copy(data)]. *)
Definition encode_cmd (h : CcsdsSecondaryCmdHeader) : list byte := cmd_buffer h.

Definition decode_cmd (data : list byte) : option CcsdsSecondaryCmdHeader :=
  option_map CmdHeader (from_buffer_copy cmd_pack cmd_fields data).

(** [CcsdsSecondaryCmdHeader(function_code, checksum)]. *)
Definition make_cmd (function_code checksum : Z) : CcsdsSecondaryCmdHeader :=
  set_checksum (set_function_code new_cmd function_code) checksum.

(** ** [class CcsdsSecondaryTlmHeader(ctypes.BigEndianStructure)] *)

Record CcsdsSecondaryTlmHeader : Type := TlmHeader { tlm_buffer : list byte }.

Definition tlm_pack : nat := 1.
Definition tlm_fields : list field :=
  [ ("timestamp_seconds", c_uint32);
    ("timestamp_subseconds", c_uint16) ].

Definition new_tlm : CcsdsSecondaryTlmHeader :=
  TlmHeader (new_buffer tlm_pack tlm_fields).

(** The class has no methods: its fields are assigned and read as
    attributes. *)
Definition set_timestamp_seconds (self : CcsdsSecondaryTlmHeader) (v : Z)
  : CcsdsSecondaryTlmHeader :=
  TlmHeader (setattr tlm_pack tlm_fields (tlm_buffer self) "timestamp_seconds" v).

Definition set_timestamp_subseconds (self : CcsdsSecondaryTlmHeader) (v : Z)
  : CcsdsSecondaryTlmHeader :=
  TlmHeader (setattr tlm_pack tlm_fields (tlm_buffer self) "timestamp_subseconds" v).

Definition timestamp_seconds (self : CcsdsSecondaryTlmHeader) : Z :=
  getattr tlm_pack tlm_fields (tlm_buffer self) "timestamp_seconds".

Definition timestamp_subseconds (self : CcsdsSecondaryTlmHeader) : Z :=
  getattr tlm_pack tlm_fields (tlm_buffer self) "timestamp_subseconds".

Definition tlm_instance (h : CcsdsSecondaryTlmHeader) : Prop :=
  List.length (tlm_buffer h) = struct_size tlm_pack tlm_fields.

Definition encode_tlm (h : CcsdsSecondaryTlmHeader) : list byte := tlm_buffer h.

Definition decode_tlm (data : list byte) : option CcsdsSecondaryTlmHeader :=
  option_map TlmHeader (from_buffer_copy tlm_pack tlm_fields data).

(** [CcsdsSecondaryTlmHeader(timestamp_seconds, timestamp_subseconds)]. *)
Definition make_tlm (seconds subseconds : Z) : CcsdsSecondaryTlmHeader :=
  set_timestamp_subseconds (set_timestamp_seconds new_tlm seconds) subseconds.

End Ccsds.

(* ===================================================================== *)
(** * [cfs_time_manager.py] *)
(* ===================================================================== *)

Module TimeManager.

Local Open Scope Q_scope.
Local Open Scope string_scope.
Local Open Scope list_scope.

(** ** Exceptions

    The classes the handlers of the module tell apart.  [KeyboardInterrupt]
    and [SystemExit] derive from [BaseException] only; the others derive
    from [Exception]. *)
Inductive exn_class : Type :=
| KeyboardInterrupt
| SystemExit
| AttributeError
| ValueError
| OSError
| CtfTestError
| CtfConditionError.

Record exn : Type := Exn { cls : exn_class; message : string }.

(** [isinstance(e, Exception)]. *)
Definition is_Exception (e : exn) : bool :=
  match cls e with
  | KeyboardInterrupt | SystemExit => false
  | _ => true
  end.

(** Modelled from the spec: [lib/exceptions.py] is not part of the sources
    at hand.  The spec separates "a generic test error from the
    verification subsystem (not a condition failure)" from the condition
    failure, and the handler in [pre_command] speaks of the "other generic
    CtfTestError": [CtfConditionError] derives from [CtfTestError]. *)
Definition is_CtfTestError (e : exn) : bool :=
  match cls e with
  | CtfTestError | CtfConditionError => true
  | _ => false
  end.

Definition is_CtfConditionError (e : exn) : bool :=
  match cls e with
  | CtfConditionError => true
  | _ => false
  end.

(** ** Observable actions

    Calls into the targets, calls of the two hooks, log records and
    sleeps, in the order in which they happen. *)
Inductive event : Type :=
| CallPreCommand
| CallPostCommand
| CallReadSbPackets (target_name : string)
| CallCheckTlmConditions (target_name : string)
| LogInfo (text : string) (arg : Q)
| LogError (text : string)
| LogDebug (e : exn)
| LogDebugTraceback (e : exn)
| Sleep (secs : Q).

Definition Qlt_bool (x y : Q) : bool := negb (Qle_bool y x).

Section Model.

Context {World : Type}.

(** ** Targets

    [target.cfs] is the interface to a running cFS instance; what its two
    operations do is outside this module, so they act on an abstract
    [World] and either return or raise. *)
Record CfsInterface : Type := {
  read_sb_packets : World -> option exn * World;
  check_tlm_conditions : World -> option exn * World
}.

Record TargetConfig : Type := { name : string }.

Record CfsController : Type := {
  cfs : option CfsInterface;
  config : TargetConfig
}.

(** The registry is a [dict]; the manager only iterates over [values()],
    in insertion order.  An entry may be [None]. *)
Definition registry : Type := list (string * option CfsController).

Definition values (d : registry) : list (option CfsController) := map snd d.

(** ** The manager object and the machine it runs on

    [exec_time] and the poll period are Python floats; they are taken as
    exact rationals here, so rounding is not part of the model. *)

Record CfsTimeManager : Type := {
  exec_time : Q;
  ctf_verification_poll_period : Q;
  cfs_targets : registry
}.

Record machine : Type := {
  self : CfsTimeManager;
  world : World;
  trace : list event
}.

Inductive result (A : Type) : Type :=
| Ok (a : A)
| Raise (e : exn).
Arguments Ok {A} a.
Arguments Raise {A} e.

Definition M (A : Type) : Type := machine -> result A * machine.

Definition ret {A} (a : A) : M A := fun m => (Ok a, m).

Definition raise {A} (e : exn) : M A := fun m => (Raise e, m).

Definition bind {A B} (c : M A) (k : A -> M B) : M B :=
  fun m =>
    match c m with
    | (Ok a, m') => k a m'
    | (Raise e, m') => (Raise e, m')
    end.

Notation "x <- c ;; k" := (bind c (fun x => k))
  (at level 61, c at next level, right associativity).
Notation "c ;; k" := (bind c (fun _ => k))
  (at level 61, right associativity).

(** [try: body / except ...: handler].  [handler e] is [None] when no
    [except] clause matches [e]. *)
Definition try_except {A} (body : M A) (handler : exn -> option (M A)) : M A :=
  fun m =>
    match body m with
    | (Ok a, m') => (Ok a, m')
    | (Raise e, m') =>
        match handler e with
        | Some h => h m'
        | None => (Raise e, m')
        end
    end.

Definition emit (ev : event) : M unit :=
  fun m => (Ok tt, {| self := self m; world := world m; trace := trace m ++ [ev] |}).

Definition get_self : M CfsTimeManager := fun m => (Ok (self m), m).

Definition set_exec_time (t : Q) : M unit :=
  fun m =>
    (Ok tt,
     {| self := {| exec_time := t;
                   ctf_verification_poll_period := ctf_verification_poll_period (self m);
                   cfs_targets := cfs_targets (self m) |};
        world := world m;
        trace := trace m |}).

(** A call into a target: the world moves on, and the call returns or
    raises. *)
Definition extern (ev : event) (op : World -> option exn * World) : M unit :=
  fun m =>
    let (r, w) := op (world m) in
    let m' := {| self := self m; world := w; trace := trace m ++ [ev] |} in
    match r with
    | None => (Ok tt, m')
    | Some e => (Raise e, m')
    end.

(** Attribute access on a value that may be [None]. *)
Definition no_attribute (attr : string) : exn :=
  Exn AttributeError ("'NoneType' object has no attribute '" ++ attr ++ "'").

Definition target_config_name (target : option CfsController) : M string :=
  match target with
  | Some t => ret (name (config t))
  | None => raise (no_attribute "config")
  end.

(** [time.sleep] rejects a negative length. *)
Definition time_sleep (secs : Q) : M unit :=
  if Qlt_bool secs 0
  then raise (Exn ValueError "sleep length must be non-negative")
  else emit (Sleep secs).

(** ** [TimeInterface]

    Modelled from the spec: [lib/time_interface.py], the base class, is not
    part of the sources at hand.  The spec describes it as "an accumulating
    execution-time counter and hook points", the hooks being "a no-op
    extension point at this layer", and [wait] as leaving the subclass
    "complete control over what happens during that advance": the three
    base methods do nothing. *)
Definition TimeInterface_wait (seconds : Q) : M unit := ret tt.
Definition TimeInterface_pre_command : M unit := ret tt.
Definition TimeInterface_post_command : M unit := ret tt.

(** ** [CfsTimeManager] *)

(** [__init__].  [configured] is the value of the option
    [ctf_verification_poll_period] of section [core] when the configuration
    has it, [Config.getfloat] falling back to [0.1] otherwise.  [t0] is the
    [exec_time] installed by [TimeInterface.__init__], and [w] the world the
    manager is created in. *)
Definition init (t0 : Q) (configured : option Q) (targets : registry) (w : World)
  : machine :=
  let period := match configured with Some p => p | None => 1 # 10 end in
  {| self := {| exec_time := t0;
                ctf_verification_poll_period := period;
                cfs_targets := targets |};
     world := w;
     trace := [LogInfo "CfsTimeManager Initialized. Verification Poll Period = {}." period] |}.

Definition handle_test_exception_during_wait
  (e : exn) (msg : string) (do_raise : bool) : M unit :=
  emit (LogError ("Error: " ++ msg)) ;;
  emit (LogDebug e) ;;
  if do_raise then raise e else ret tt.

(** The first loop of [pre_command]. *)
Definition read_target (target : option CfsController) : M unit :=
  try_except
    (match target with
     | None => raise (no_attribute "cfs")
     | Some t =>
         match cfs t with
         | None => raise (no_attribute "read_sb_packets")
         | Some i => extern (CallReadSbPackets (name (config t))) (read_sb_packets i)
         end
     end)
    (fun e =>
       if is_Exception e then
         Some (n <- target_config_name target ;;
               emit (LogError ("Failed to receive CFS Telemetry Packets for CFS Target: "
                               ++ n ++ ".")) ;;
               emit (LogDebugTraceback e))
       else None).

Fixpoint read_targets (targets : list (option CfsController)) : M unit :=
  match targets with
  | [] => ret tt
  | target :: rest => read_target target ;; read_targets rest
  end.

(** The loop of [run_continuous_verifications]. *)
Definition check_target (target : option CfsController) : M unit :=
  match target with
  | Some t =>
      match cfs t with
      | Some i => extern (CallCheckTlmConditions (name (config t))) (check_tlm_conditions i)
      | None => ret tt
      end
  | None => ret tt
  end.

Fixpoint check_targets (targets : list (option CfsController)) : M unit :=
  match targets with
  | [] => ret tt
  | target :: rest => check_target target ;; check_targets rest
  end.

Definition run_continuous_verifications : M unit :=
  try_except
    (s <- get_self ;; check_targets (values (cfs_targets s)))
    (fun e =>
       if is_CtfConditionError e then
         Some (emit (LogError "Test condition(s) failed in Post Command.") ;; raise e)
       else None).

Definition pre_command : M unit :=
  emit CallPreCommand ;;
  TimeInterface_pre_command ;;
  s <- get_self ;;
  read_targets (values (cfs_targets s)) ;;
  try_except run_continuous_verifications
    (fun e =>
       if is_CtfConditionError e then Some (raise e)
       else if is_CtfTestError e then Some (emit (LogDebug e) ;; raise e)
       else None).

Definition post_command : M unit :=
  emit CallPostCommand ;;
  TimeInterface_post_command.

(** The body of the [while] loop of [wait]. *)
Definition poll : M unit :=
  try_except pre_command
    (fun e =>
       if is_CtfTestError e
       then Some (handle_test_exception_during_wait e "CfsTimeManager: Pre-Command Failed" true)
       else None) ;;
  try_except post_command
    (fun e =>
       if is_CtfTestError e
       then Some (handle_test_exception_during_wait e "CfsTimeManager: Post-Command Failed" true)
       else None) ;;
  s <- get_self ;;
  time_sleep (ctf_verification_poll_period s) ;;
  s' <- get_self ;;
  set_exec_time (exec_time s' + ctf_verification_poll_period s').

(** How a call of [wait] ends when it is given [fuel] loop iterations. *)
Inductive outcome : Type :=
| Returned
| Raised (e : exn)
| OutOfFuel.

Fixpoint wait_loop (fuel : nat) (start_time seconds : Q) (m : machine)
  : outcome * machine :=
  if Qlt_bool (exec_time (self m)) (start_time + seconds) then
    match fuel with
    | O => (OutOfFuel, m)
    | S fuel' =>
        match poll m with
        | (Ok _, m') => wait_loop fuel' start_time seconds m'
        | (Raise e, m') => (Raised e, m')
        end
    end
  else (Returned, m).

Definition wait (fuel : nat) (seconds : Q) (m : machine) : outcome * machine :=
  match TimeInterface_wait seconds m with
  | (Ok _, m0) => wait_loop fuel (exec_time (self m0)) seconds m0
  | (Raise e, m0) => (Raised e, m0)
  end.

(** ** Reading a trace *)

Definition is_hook (ev : event) : bool :=
  match ev with
  | CallPreCommand | CallPostCommand => true
  | _ => false
  end.

Definition hook_calls (tr : list event) : list event := filter is_hook tr.

Definition is_pre (ev : event) : bool :=
  match ev with CallPreCommand => true | _ => false end.

Definition is_post (ev : event) : bool :=
  match ev with CallPostCommand => true | _ => false end.

Definition is_sleep (ev : event) : bool :=
  match ev with Sleep _ => true | _ => false end.

Definition count (f : event -> bool) (tr : list event) : nat :=
  List.length (filter f tr).

(** The targets on which [read_sb_packets] was invoked, in call order. *)
Fixpoint reads (tr : list event) : list string :=
  match tr with
  | [] => []
  | CallReadSbPackets n :: rest => n :: reads rest
  | _ :: rest => reads rest
  end.

Fixpoint checks (tr : list event) : list string :=
  match tr with
  | [] => []
  | CallCheckTlmConditions n :: rest => n :: checks rest
  | _ :: rest => checks rest
  end.

(** The machine with [evs] appended to its trace. *)
Definition logged (evs : list event) (m : machine) : machine :=
  {| self := self m; world := world m; trace := trace m ++ evs |}.

(** The machine after [exec_time += ctf_verification_poll_period]. *)
Definition ticked (m : machine) : machine :=
  {| self := {| exec_time := exec_time (self m) + ctf_verification_poll_period (self m);
                ctf_verification_poll_period := ctf_verification_poll_period (self m);
                cfs_targets := cfs_targets (self m) |};
     world := world m;
     trace := trace m |}.

(** Events that are neither a hook call nor a sleep. *)
Definition inner (ev : event) : bool := negb (is_hook ev) && negb (is_sleep ev).

(** A computation that leaves the manager object alone and only adds
    [inner] events to the trace. *)
Definition silent {A} (c : M A) : Prop :=
  forall m,
    self (snd (c m)) = self m /\
    exists new, trace (snd (c m)) = trace m ++ new /\ forallb inner new = true.

(** The first half of [pre_command]: entry into the hook and the
    telemetry reads. *)
Definition ingest : M unit :=
  emit CallPreCommand ;;
  TimeInterface_pre_command ;;
  s <- get_self ;;
  read_targets (values (cfs_targets s)).

(** In the poll that starts in [m], the reads complete and then the check
    of one of the targets raises [e]. *)
Definition check_raises (m : machine) (e : exn) : Prop :=
  exists mi before t i after mc w,
    ingest m = (Ok tt, mi) /\
    values (cfs_targets (self m)) = before ++ Some t :: after /\
    cfs t = Some i /\
    check_targets before mi = (Ok tt, mc) /\
    check_tlm_conditions i (world mc) = (Some e, w).

(** No read and no check of a target of the registry ever raises. *)
Definition never_fails (d : registry) : Prop :=
  forall x, In x (values d) ->
    exists t i, x = Some t /\ cfs t = Some i /\
      (forall w, fst (read_sb_packets i w) = None) /\
      (forall w, fst (check_tlm_conditions i w) = None).

(** Every entry of the registry is a target, and whatever a read raises
    derives from [Exception]. *)
Definition reads_raise_Exception_only (d : registry) : Prop :=
  forall x, In x (values d) ->
    exists t, x = Some t /\
      forall i w e w', cfs t = Some i -> read_sb_packets i w = (Some e, w') ->
        is_Exception e = true.

(** The names of the targets that have a cFS interface, in registry order. *)
Fixpoint connected (targets : list (option CfsController)) : list string :=
  match targets with
  | [] => []
  | Some t :: rest =>
      match cfs t with
      | Some _ => name (config t) :: connected rest
      | None => connected rest
      end
  | None :: rest => connected rest
  end.

(** [exec_time] after [k] increments by [p]. *)
Definition advance (p : Q) (k : nat) (t : Q) : Q := Nat.iter k (fun x => x + p) t.

(** [k] complete polls, as seen through the hooks. *)
Fixpoint paired (k : nat) : list event :=
  match k with
  | O => []
  | S k' => CallPreCommand :: CallPostCommand :: paired k'
  end.

(** ** Further notions used to describe runs *)

Definition is_read (ev : event) : bool :=
  match ev with CallReadSbPackets _ => true | _ => false end.

Definition is_check (ev : event) : bool :=
  match ev with CallCheckTlmConditions _ => true | _ => false end.

Definition not_check (ev : event) : bool := negb (is_check ev).

Definition not_read (ev : event) : bool := negb (is_read ev).

(** A computation that leaves the manager object alone and only adds events
    accepted by [ok] to the trace. *)
Definition emits_only {A} (ok : event -> bool) (c : M A) : Prop :=
  forall m,
    self (snd (c m)) = self m /\
    exists new, trace (snd (c m)) = trace m ++ new /\ forallb ok new = true.


(** No check of a target of the registry ever raises. *)
Definition checks_never_raise (d : registry) : Prop :=
  forall t i, In (Some t) (values d) -> cfs t = Some i ->
    forall w, fst (check_tlm_conditions i w) = None.

(** A registry on which polls cannot fail: reads may raise (anything that
    derives from [Exception]), targets may lack a cFS interface, checks
    pass. *)
Definition tolerable (d : registry) : Prop :=
  reads_raise_Exception_only d /\ checks_never_raise d.

End Model.

Arguments CfsInterface : clear implicits.
Arguments CfsController : clear implicits.
Arguments registry : clear implicits.
Arguments CfsTimeManager : clear implicits.
Arguments machine : clear implicits.
Arguments Ok {A} a.
Arguments Raise {A} e.

(** ** Concrete targets

    A world that counts the verification calls made so far. *)

Module Scenario.

Local Open Scope Q_scope.
Local Open Scope string_scope.
Local Open Scope list_scope.

Definition quiet_read (w : nat) : option exn * nat := (None, w).
Definition quiet_check (w : nat) : option exn * nat := (None, w).

(** Reads and checks always succeed. *)
Definition steady (n : string) : CfsController nat :=
  {| cfs := Some {| read_sb_packets := quiet_read; check_tlm_conditions := quiet_check |};
     config := {| name := n |} |}.

(** Every read raises [e]. *)
Definition unreadable (n : string) (e : exn) : CfsController nat :=
  {| cfs := Some {| read_sb_packets := fun w => (Some e, w);
                    check_tlm_conditions := quiet_check |};
     config := {| name := n |} |}.

(** The check raises [e] on its call number [k] (counted from 0). *)
Definition failing_at (n : string) (k : nat) (e : exn) : CfsController nat :=
  {| cfs := Some {| read_sb_packets := quiet_read;
                    check_tlm_conditions :=
                      fun w => (if Nat.eqb w k then Some e else None, S w) |};
     config := {| name := n |} |}.

(** A target without a cFS interface. *)
Definition disconnected (n : string) : CfsController nat :=
  {| cfs := None; config := {| name := n |} |}.

(** The read raises [e] on the polls whose number (counted from 0, by the
    checks made so far) is odd. *)
Definition flaky (n : string) (e : exn) : CfsController nat :=
  {| cfs := Some {| read_sb_packets := fun w => (if Nat.odd w then Some e else None, w);
                    check_tlm_conditions := fun w => (None, S w) |};
     config := {| name := n |} |}.

(** Every check raises [e]. *)
Definition rejecting (n : string) (e : exn) : CfsController nat :=
  {| cfs := Some {| read_sb_packets := quiet_read;
                    check_tlm_conditions := fun w => (Some e, w) |};
     config := {| name := n |} |}.

Definition socket_timeout : exn := Exn OSError "timed out".
Definition interrupt : exn := Exn KeyboardInterrupt "".
Definition condition_failed : exn := Exn CtfConditionError "condition failed".
Definition bad_verification : exn := Exn CtfTestError "malformed verification".

(** A registry with a failing read, a missing interface and a read that
    fails every other poll. *)
Definition rough_registry : registry nat :=
  [("a", Some (unreadable "A" socket_timeout));
   ("d", Some (disconnected "D"));
   ("f", Some (flaky "F" socket_timeout));
   ("b", Some (steady "B"))].

Definition boot (period : Q) (targets : registry nat) : machine nat :=
  init 0 (Some period) targets O.

End Scenario.

End TimeManager.

(* ===================================================================== *)
(** * Properties of the secondary headers *)
(* ===================================================================== *)

Module CcsdsFacts.

Import Ctypes Ccsds.
Local Open Scope Z_scope.

Example cmd_bytes_sample :
  encode_cmd (make_cmd 258 (-1)) = [x02; xff]%byte.
Proof. reflexivity. Qed.

Example tlm_bytes_sample :
  encode_tlm (make_tlm 16909060 1286) = [x01; x02; x03; x04; x05; x06]%byte.
Proof. reflexivity. Qed.

(** Without [_pack_ = 1] the telemetry header would be padded to 8 bytes. *)
Example tlm_unpacked_size :
  struct_size 8 tlm_fields = 8%nat /\ struct_size 1 tlm_fields = 6%nat.
Proof. split; reflexivity. Qed.

Lemma Z_of_byte_of_Z (z : Z) : Z_of_byte (byte_of_Z z) = z mod 256.
Proof.
  unfold Z_of_byte, byte_of_Z.
  assert (Hr : 0 <= z mod 256 < 256) by (apply Z.mod_pos_bound; lia).
  destruct (Byte.of_N (Z.to_N (z mod 256))) as [b|] eqn:E.
  - apply Byte.to_of_N in E. rewrite E. lia.
  - apply Byte.of_N_None_iff in E. lia.
Qed.

Lemma Z_of_byte_range (b : byte) : 0 <= Z_of_byte b < 256.
Proof.
  unfold Z_of_byte. pose proof (Byte.to_N_bounded b). lia.
Qed.

Lemma byte_of_Z_of_byte (b : byte) : byte_of_Z (Z_of_byte b) = b.
Proof.
  unfold byte_of_Z. pose proof (Z_of_byte_range b) as Hr.
  rewrite Z.mod_small by lia. unfold Z_of_byte.
  rewrite N2Z.id, Byte.of_to_N. reflexivity.
Qed.

Lemma fold_be_value (bs : list byte) (acc : Z) :
  fold_left (fun a b => a * 256 + Z_of_byte b) bs acc
  = acc * 256 ^ Z.of_nat (List.length bs) + be_value bs.
Proof.
  unfold be_value. revert acc.
  induction bs as [|b bs IH]; intro acc.
  - simpl. lia.
  - cbn [fold_left List.length]. rewrite IH, (IH (0 * 256 + Z_of_byte b)).
    rewrite Nat2Z.inj_succ, Z.pow_succ_r by lia. ring.
Qed.

Lemma be_bytes_length (n : nat) (v : Z) : List.length (be_bytes n v) = n.
Proof. induction n as [|n IH]; simpl; [reflexivity | now rewrite IH]. Qed.

(** Storing and loading a field keeps the low [8 * n] bits. *)
Lemma be_value_be_bytes (n : nat) (v : Z) :
  be_value (be_bytes n v) = v mod 2 ^ (8 * Z.of_nat n).
Proof.
  induction n as [|n IH].
  - simpl. now rewrite Z.mod_1_r.
  - cbn [be_bytes]. unfold be_value. cbn [fold_left].
    rewrite fold_be_value, be_bytes_length, IH, Z_of_byte_of_Z.
    rewrite Z.shiftr_div_pow2 by lia.
    replace (8 * Z.of_nat (S n)) with (8 * Z.of_nat n + 8) by lia.
    rewrite Z.pow_add_r by lia.
    change (2 ^ 8) with 256.
    rewrite Z.rem_mul_r by lia.
    replace (256 ^ Z.of_nat n) with (2 ^ (8 * Z.of_nat n)).
    + ring.
    + change 256 with (2 ^ 8). rewrite <- Z.pow_mul_r by lia. reflexivity.
Qed.

Lemma make_cmd_buffer (fc ck : Z) :
  cmd_buffer (make_cmd fc ck) = (be_bytes 1 fc ++ be_bytes 1 ck)%list.
Proof. reflexivity. Qed.

Lemma make_tlm_buffer (s ss : Z) :
  tlm_buffer (make_tlm s ss) = (be_bytes 4 s ++ be_bytes 2 ss)%list.
Proof. reflexivity. Qed.

Lemma make_cmd_fields (fc ck : Z) :
  get_function_code (make_cmd fc ck) = fc mod 2 ^ 8 /\
  get_checksum (make_cmd fc ck) = ck mod 2 ^ 8.
Proof.
  split.
  - change (get_function_code (make_cmd fc ck)) with (be_value (be_bytes 1 fc)).
    apply be_value_be_bytes.
  - change (get_checksum (make_cmd fc ck)) with (be_value (be_bytes 1 ck)).
    apply be_value_be_bytes.
Qed.

Lemma make_tlm_fields (s ss : Z) :
  timestamp_seconds (make_tlm s ss) = s mod 2 ^ 32 /\
  timestamp_subseconds (make_tlm s ss) = ss mod 2 ^ 16.
Proof.
  split.
  - change (timestamp_seconds (make_tlm s ss)) with (be_value (be_bytes 4 s)).
    apply be_value_be_bytes.
  - change (timestamp_subseconds (make_tlm s ss)) with (be_value (be_bytes 2 ss)).
    apply be_value_be_bytes.
Qed.

(** Every instance is determined by its field values. *)
Lemma cmd_instance_make (h : CcsdsSecondaryCmdHeader) :
  cmd_instance h -> h = make_cmd (get_function_code h) (get_checksum h).
Proof.
  destruct h as [buf]. unfold cmd_instance. cbn [cmd_buffer].
  destruct buf as [|a [|b [|c buf]]]; try discriminate. intros _.
  unfold make_cmd, set_checksum, set_function_code, get_function_code, get_checksum.
  cbn. rewrite !byte_of_Z_of_byte. reflexivity.
Qed.

(** C5. Round trip of both secondary headers: for field values within the
    declared widths, decoding the encoded header gives back the header, the
    header holds exactly the values it was built from, and the encoded form
    is 2 bytes for the command header and 6 bytes for the telemetry
    header. *)
Theorem header_roundtrip (fc ck s ss : Z) :
  0 <= fc <= 255 -> 0 <= ck <= 255 ->
  0 <= s <= 2 ^ 32 - 1 -> 0 <= ss <= 2 ^ 16 - 1 ->
  (decode_cmd (encode_cmd (make_cmd fc ck)) = Some (make_cmd fc ck) /\
   get_function_code (make_cmd fc ck) = fc /\
   get_checksum (make_cmd fc ck) = ck /\
   List.length (encode_cmd (make_cmd fc ck)) = 2%nat) /\
  (decode_tlm (encode_tlm (make_tlm s ss)) = Some (make_tlm s ss) /\
   timestamp_seconds (make_tlm s ss) = s /\
   timestamp_subseconds (make_tlm s ss) = ss /\
   List.length (encode_tlm (make_tlm s ss)) = 6%nat).
Proof.
  intros Hfc Hck Hs Hss.
  destruct (make_cmd_fields fc ck) as [F1 F2].
  destruct (make_tlm_fields s ss) as [T1 T2].
  rewrite Z.mod_small in F1, F2, T1, T2 by lia.
  repeat split; try assumption; reflexivity.
Qed.

Lemma header_roundtrip_witness :
  (decode_cmd (encode_cmd (make_cmd 17 255)) = Some (make_cmd 17 255) /\
   get_function_code (make_cmd 17 255) = 17 /\
   get_checksum (make_cmd 17 255) = 255 /\
   List.length (encode_cmd (make_cmd 17 255)) = 2%nat) /\
  (decode_tlm (encode_tlm (make_tlm 4294967295 513)) = Some (make_tlm 4294967295 513) /\
   timestamp_seconds (make_tlm 4294967295 513) = 4294967295 /\
   timestamp_subseconds (make_tlm 4294967295 513) = 513 /\
   List.length (encode_tlm (make_tlm 4294967295 513)) = 6%nat).
Proof. apply (header_roundtrip 17 255 4294967295 513); lia. Defined.

(** C6. Wire layout: the command header is the function code byte followed
    by the checksum byte; the telemetry header is the four bytes of the
    seconds, most significant first, followed by the two bytes of the
    subseconds, most significant first; nothing else is emitted. *)
Theorem header_layout (fc ck s ss : Z) :
  0 <= fc <= 255 -> 0 <= ck <= 255 ->
  0 <= s <= 2 ^ 32 - 1 -> 0 <= ss <= 2 ^ 16 - 1 ->
  map Z_of_byte (encode_cmd (make_cmd fc ck)) = [fc; ck] /\
  map Z_of_byte (encode_tlm (make_tlm s ss))
  = [s / 2 ^ 24; s / 2 ^ 16 mod 256; s / 2 ^ 8 mod 256; s mod 256;
     ss / 2 ^ 8; ss mod 256].
Proof.
  intros Hfc Hck Hs Hss. split.
  - unfold encode_cmd. rewrite make_cmd_buffer. cbn [be_bytes app map].
    rewrite !Z_of_byte_of_Z, !Z.shiftr_div_pow2 by lia.
    cbn [Z.of_nat Z.mul]. rewrite !Z.pow_0_r, !Z.div_1_r.
    rewrite !Z.mod_small by lia. reflexivity.
  - unfold encode_tlm. rewrite make_tlm_buffer. cbn [be_bytes app map].
    rewrite !Z_of_byte_of_Z, !Z.shiftr_div_pow2 by lia.
    change (8 * Z.of_nat 3) with 24. change (8 * Z.of_nat 2) with 16.
    change (8 * Z.of_nat 1) with 8. change (8 * Z.of_nat 0) with 0.
    rewrite !Z.pow_0_r, !Z.div_1_r.
    assert (H24 : 0 <= s / 2 ^ 24 < 256).
    { split; [apply Z.div_pos; lia | apply Z.div_lt_upper_bound; lia]. }
    assert (H8 : 0 <= ss / 2 ^ 8 < 256).
    { split; [apply Z.div_pos; lia | apply Z.div_lt_upper_bound; lia]. }
    rewrite (Z.mod_small (s / 2 ^ 24)), (Z.mod_small (ss / 2 ^ 8)) by assumption.
    reflexivity.
Qed.

Lemma header_layout_witness :
  map Z_of_byte (encode_cmd (make_cmd 17 255)) = [17; 255] /\
  map Z_of_byte (encode_tlm (make_tlm 16909060 1286))
  = [16909060 / 2 ^ 24; 16909060 / 2 ^ 16 mod 256; 16909060 / 2 ^ 8 mod 256;
     16909060 mod 256; 1286 / 2 ^ 8; 1286 mod 256].
Proof. apply (header_layout 17 255 16909060 1286); lia. Defined.

(** C7. The command header setters keep the low eight bits of any integer:
    reading a field back gives the value modulo 256, the other field is
    untouched, and the result is again an instance (the setters are total:
    no integer is rejected). *)
Theorem setters_wrap (h : CcsdsSecondaryCmdHeader) (v : Z) :
  cmd_instance h ->
  (get_function_code (set_function_code h v) = v mod 256 /\
   get_checksum (set_function_code h v) = get_checksum h /\
   cmd_instance (set_function_code h v)) /\
  (get_checksum (set_checksum h v) = v mod 256 /\
   get_function_code (set_checksum h v) = get_function_code h /\
   cmd_instance (set_checksum h v)).
Proof.
  destruct h as [buf]. unfold cmd_instance. cbn [cmd_buffer].
  destruct buf as [|a [|b [|c buf]]]; try discriminate. intros _.
  unfold set_checksum, set_function_code, get_function_code, get_checksum.
  cbn. rewrite !Z_of_byte_of_Z. repeat split.
Qed.

Lemma setters_wrap_witness :
  (get_function_code (set_function_code new_cmd 300) = 300 mod 256 /\
   get_checksum (set_function_code new_cmd 300) = get_checksum new_cmd /\
   cmd_instance (set_function_code new_cmd 300)) /\
  (get_checksum (set_checksum new_cmd 300) = 300 mod 256 /\
   get_function_code (set_checksum new_cmd 300) = get_function_code new_cmd /\
   cmd_instance (set_checksum new_cmd 300)).
Proof. apply (setters_wrap new_cmd 300). reflexivity. Defined.

Example wrap_negative_sample :
  get_function_code (set_function_code new_cmd (-1)) = 255 /\
  get_checksum (set_checksum new_cmd 256) = 0.
Proof. split; reflexivity. Qed.

(** ** Further properties of the headers *)

Lemma be_value_range (bs : list byte) :
  0 <= be_value bs < 256 ^ Z.of_nat (List.length bs).
Proof.
  induction bs as [|b bs IH].
  - cbn. lia.
  - unfold be_value in *. cbn [fold_left List.length].
    rewrite fold_be_value. unfold be_value.
    pose proof (Z_of_byte_range b) as Hb.
    rewrite Nat2Z.inj_succ, Z.pow_succ_r by lia.
    assert (0 < 256 ^ Z.of_nat (List.length bs)) by (apply Z.pow_pos_nonneg; lia).
    nia.
Qed.

Lemma Z_of_byte_inj (a b : byte) : Z_of_byte a = Z_of_byte b -> a = b.
Proof.
  intro H. rewrite <- (byte_of_Z_of_byte a), <- (byte_of_Z_of_byte b).
  now rewrite H.
Qed.

(** Assigning a telemetry field keeps the low 32 (resp. 16) bits of any
    integer, leaves the other field alone and keeps the buffer size. *)
Theorem tlm_fields_wrap (h : CcsdsSecondaryTlmHeader) (v : Z) :
  tlm_instance h ->
  (timestamp_seconds (set_timestamp_seconds h v) = v mod 2 ^ 32 /\
   timestamp_subseconds (set_timestamp_seconds h v) = timestamp_subseconds h /\
   tlm_instance (set_timestamp_seconds h v)) /\
  (timestamp_subseconds (set_timestamp_subseconds h v) = v mod 2 ^ 16 /\
   timestamp_seconds (set_timestamp_subseconds h v) = timestamp_seconds h /\
   tlm_instance (set_timestamp_subseconds h v)).
Proof.
  destruct h as [buf]. unfold tlm_instance. cbn [tlm_buffer].
  destruct buf as [|a [|b [|c [|d [|e [|f [|g buf]]]]]]]; try discriminate.
  intros _. repeat split.
  - change (timestamp_seconds (set_timestamp_seconds (TlmHeader [a; b; c; d; e; f]) v))
      with (be_value (be_bytes 4 v)).
    apply be_value_be_bytes.
  - change (timestamp_subseconds (set_timestamp_subseconds (TlmHeader [a; b; c; d; e; f]) v))
      with (be_value (be_bytes 2 v)).
    apply be_value_be_bytes.
Qed.

Lemma tlm_fields_wrap_witness :
  (timestamp_seconds (set_timestamp_seconds new_tlm (2 ^ 32 + 7)) = (2 ^ 32 + 7) mod 2 ^ 32 /\
   timestamp_subseconds (set_timestamp_seconds new_tlm (2 ^ 32 + 7)) = timestamp_subseconds new_tlm /\
   tlm_instance (set_timestamp_seconds new_tlm (2 ^ 32 + 7))) /\
  (timestamp_subseconds (set_timestamp_subseconds new_tlm (2 ^ 32 + 7)) = (2 ^ 32 + 7) mod 2 ^ 16 /\
   timestamp_seconds (set_timestamp_subseconds new_tlm (2 ^ 32 + 7)) = timestamp_seconds new_tlm /\
   tlm_instance (set_timestamp_subseconds new_tlm (2 ^ 32 + 7))).
Proof. apply (tlm_fields_wrap new_tlm (2 ^ 32 + 7)). reflexivity. Defined.

(** The two setters of the command header do not interfere: the last value
    written to a field is the one that stays, and writes to different
    fields can be done in either order. *)
Theorem cmd_setters_compose (h : CcsdsSecondaryCmdHeader) (a b : Z) :
  cmd_instance h ->
  set_function_code (set_function_code h a) b = set_function_code h b /\
  set_checksum (set_checksum h a) b = set_checksum h b /\
  set_checksum (set_function_code h a) b = set_function_code (set_checksum h b) a.
Proof.
  destruct h as [buf]. unfold cmd_instance. cbn [cmd_buffer].
  destruct buf as [|x [|y [|z buf]]]; try discriminate.
  intros _. repeat split.
Qed.

Lemma cmd_setters_compose_witness :
  set_function_code (set_function_code new_cmd 1) 2 = set_function_code new_cmd 2 /\
  set_checksum (set_checksum new_cmd 1) 2 = set_checksum new_cmd 2 /\
  set_checksum (set_function_code new_cmd 1) 2 = set_function_code (set_checksum new_cmd 2) 1.
Proof. apply (cmd_setters_compose new_cmd 1 2). reflexivity. Defined.

(** Whatever bytes a header holds, its fields read as unsigned values of
    the declared widths. *)
Theorem fields_in_range (hc : CcsdsSecondaryCmdHeader) (ht : CcsdsSecondaryTlmHeader) :
  0 <= get_function_code hc < 2 ^ 8 /\
  0 <= get_checksum hc < 2 ^ 8 /\
  0 <= timestamp_seconds ht < 2 ^ 32 /\
  0 <= timestamp_subseconds ht < 2 ^ 16.
Proof.
  assert (G : forall n off buf,
             0 <= be_value (firstn n (skipn off buf)) < 256 ^ Z.of_nat n).
  { intros n off buf.
    pose proof (be_value_range (firstn n (skipn off buf))) as R.
    pose proof (firstn_le_length n (skipn off buf)) as L.
    assert (256 ^ Z.of_nat (List.length (firstn n (skipn off buf)))
            <= 256 ^ Z.of_nat n) by (apply Z.pow_le_mono_r; lia).
    lia. }
  repeat split;
    first [ apply (G 1%nat 0%nat) | apply (G 1%nat 1%nat)
          | apply (G 4%nat 0%nat) | apply (G 2%nat 4%nat) ].
Qed.

(** Decoding: a buffer shorter than the header is refused; otherwise the
    header is made of the first bytes of the buffer, read most significant
    byte first, and encoding it gives those bytes back. *)
Theorem decode_reads_big_endian (data : list byte) :
  match decode_cmd data with
  | None => (List.length data < 2)%nat
  | Some h =>
      (2 <= List.length data)%nat /\
      encode_cmd h = firstn 2 data /\
      get_function_code h = Z_of_byte (nth 0 data x00) /\
      get_checksum h = Z_of_byte (nth 1 data x00)
  end /\
  match decode_tlm data with
  | None => (List.length data < 6)%nat
  | Some h =>
      (6 <= List.length data)%nat /\
      encode_tlm h = firstn 6 data /\
      timestamp_seconds h
      = Z_of_byte (nth 0 data x00) * 2 ^ 24 + Z_of_byte (nth 1 data x00) * 2 ^ 16
        + Z_of_byte (nth 2 data x00) * 2 ^ 8 + Z_of_byte (nth 3 data x00) /\
      timestamp_subseconds h
      = Z_of_byte (nth 4 data x00) * 2 ^ 8 + Z_of_byte (nth 5 data x00)
  end.
Proof.
  split.
  - destruct data as [|a [|b data]]; cbn; try lia.
    repeat split; lia.
  - destruct data as [|a [|b [|c [|d [|e [|f data]]]]]]; cbn -[Z.pow]; try lia.
    repeat split; lia.
Qed.

(** A header holds nothing but its fields: two instances with the same
    field values are the same header, hence encode to the same bytes. *)
Theorem header_determined_by_fields :
  (forall h1 h2 : CcsdsSecondaryCmdHeader,
      cmd_instance h1 -> cmd_instance h2 ->
      get_function_code h1 = get_function_code h2 ->
      get_checksum h1 = get_checksum h2 -> h1 = h2) /\
  (forall h1 h2 : CcsdsSecondaryTlmHeader,
      tlm_instance h1 -> tlm_instance h2 ->
      timestamp_seconds h1 = timestamp_seconds h2 ->
      timestamp_subseconds h1 = timestamp_subseconds h2 -> h1 = h2).
Proof.
  split.
  - intros h1 h2 I1 I2 F C.
    rewrite (cmd_instance_make h1 I1), (cmd_instance_make h2 I2), F, C.
    reflexivity.
  - intros [b1] [b2]. unfold tlm_instance. cbn [tlm_buffer].
    destruct b1 as [|a [|b [|c [|d [|e [|f [|g b1]]]]]]]; try discriminate.
    destruct b2 as [|a' [|b' [|c' [|d' [|e' [|f' [|g' b2]]]]]]]; try discriminate.
    intros _ _.
    unfold timestamp_seconds, timestamp_subseconds, getattr, be_value.
    cbn -[Z.pow Z.mul Z.add].
    pose proof (Z_of_byte_range a). pose proof (Z_of_byte_range b).
    pose proof (Z_of_byte_range c). pose proof (Z_of_byte_range d).
    pose proof (Z_of_byte_range e). pose proof (Z_of_byte_range f).
    pose proof (Z_of_byte_range a'). pose proof (Z_of_byte_range b').
    pose proof (Z_of_byte_range c'). pose proof (Z_of_byte_range d').
    pose proof (Z_of_byte_range e'). pose proof (Z_of_byte_range f').
    intros Hs Hss.
    assert (Z_of_byte a = Z_of_byte a') by lia.
    assert (Z_of_byte b = Z_of_byte b') by lia.
    assert (Z_of_byte c = Z_of_byte c') by lia.
    assert (Z_of_byte d = Z_of_byte d') by lia.
    assert (Z_of_byte e = Z_of_byte e') by lia.
    assert (Z_of_byte f = Z_of_byte f') by lia.
    repeat match goal with
           | H : Z_of_byte _ = Z_of_byte _ |- _ => apply Z_of_byte_inj in H
           end.
    subst. reflexivity.
Qed.

End CcsdsFacts.

(* ===================================================================== *)
(** * Properties of the time manager *)
(* ===================================================================== *)

Module TimeManagerFacts.

Import TimeManager.
Local Open Scope Q_scope.
Local Open Scope list_scope.

Lemma Qlt_bool_iff (x y : Q) : Qlt_bool x y = true <-> x < y.
Proof.
  unfold Qlt_bool. rewrite negb_true_iff. split.
  - intro H. apply Qnot_le_lt. intro Hle.
    apply Qle_bool_iff in Hle. congruence.
  - intro H. destruct (Qle_bool y x) eqn:E; [|reflexivity].
    apply Qle_bool_iff in E. exfalso. apply (Qlt_not_le _ _ H E).
Qed.

Lemma Qlt_bool_false_iff (x y : Q) : Qlt_bool x y = false <-> y <= x.
Proof.
  unfold Qlt_bool. rewrite negb_false_iff. apply Qle_bool_iff.
Qed.

Section Facts.

Context {World : Type}.

(** ** Silent computations *)

Lemma silent_ret {A} (a : A) : silent (ret a : @M World A).
Proof.
  intro m. split; [reflexivity|]. exists []. now rewrite app_nil_r.
Qed.

Lemma silent_raise {A} (e : exn) : silent (raise e : @M World A).
Proof.
  intro m. split; [reflexivity|]. exists []. now rewrite app_nil_r.
Qed.

Lemma silent_get_self : silent (get_self : @M World _).
Proof.
  intro m. split; [reflexivity|]. exists []. now rewrite app_nil_r.
Qed.

Lemma silent_emit (ev : event) : inner ev = true -> silent (emit ev : @M World unit).
Proof.
  intros H m. split; [reflexivity|]. exists [ev]. split; [reflexivity|].
  simpl. now rewrite H.
Qed.

Lemma silent_extern (ev : event) (op : World -> option exn * World) :
  inner ev = true -> silent (extern ev op).
Proof.
  intros H m. unfold extern. destruct (op (world m)) as [[e|] w]; simpl;
    (split; [reflexivity|]; exists [ev]; split; [reflexivity|];
     simpl; now rewrite H).
Qed.

Lemma silent_bind {A B} (c : @M World A) (k : A -> @M World B) :
  silent c -> (forall a, silent (k a)) -> silent (bind c k).
Proof.
  intros Hc Hk m. unfold bind.
  destruct (Hc m) as [Hs [new [Ht Hn]]].
  destruct (c m) as [[a|e] m1]; simpl in *.
  - destruct (Hk a m1) as [Hs' [new' [Ht' Hn']]].
    split; [congruence|]. exists (new ++ new'). split.
    + rewrite Ht', Ht. now rewrite app_assoc.
    + rewrite forallb_app, Hn, Hn'. reflexivity.
  - split; [assumption|]. exists new. now split.
Qed.

Lemma silent_try {A} (body : @M World A) (handler : exn -> option (@M World A)) :
  silent body -> (forall e h, handler e = Some h -> silent h) ->
  silent (try_except body handler).
Proof.
  intros Hb Hh m. unfold try_except.
  destruct (Hb m) as [Hs [new [Ht Hn]]].
  destruct (body m) as [[a|e] m1]; simpl in *.
  - split; [assumption|]. exists new. now split.
  - destruct (handler e) as [h|] eqn:E.
    + destruct (Hh e h E m1) as [Hs' [new' [Ht' Hn']]].
      split; [congruence|]. exists (new ++ new'). split.
      * rewrite Ht', Ht. now rewrite app_assoc.
      * rewrite forallb_app, Hn, Hn'. reflexivity.
    + simpl. split; [assumption|]. exists new. now split.
Qed.

Ltac silence :=
  repeat first
    [ apply silent_bind; [|intro]
    | apply silent_try; [|let e := fresh "e" in let h := fresh "h" in
                          let E := fresh "E" in intros e h E]
    | apply silent_ret
    | apply silent_raise
    | apply silent_get_self
    | apply silent_emit; reflexivity
    | apply silent_extern; reflexivity ].

Lemma silent_handle (e : exn) (msg : string) (do_raise : bool) :
  silent (handle_test_exception_during_wait e msg do_raise : @M World unit).
Proof.
  unfold handle_test_exception_during_wait. silence.
  destruct do_raise; silence.
Qed.

Lemma silent_read_target (target : option (CfsController World)) :
  silent (read_target target).
Proof.
  unfold read_target. silence.
  - destruct target as [t|]; silence. destruct (cfs t); silence.
  - destruct (is_Exception e); [|discriminate].
    injection E as <-. silence.
    unfold target_config_name. destruct target; silence.
Qed.

Lemma silent_read_targets (targets : list (option (CfsController World))) :
  silent (read_targets targets).
Proof.
  induction targets as [|t rest IH]; cbn [read_targets].
  - apply silent_ret.
  - apply silent_bind; [apply silent_read_target | intros _; exact IH].
Qed.

Lemma silent_check_target (target : option (CfsController World)) :
  silent (check_target target).
Proof.
  unfold check_target. destruct target as [t|]; silence.
  destruct (cfs t); silence.
Qed.

Lemma silent_check_targets (targets : list (option (CfsController World))) :
  silent (check_targets targets).
Proof.
  induction targets as [|t rest IH]; cbn [check_targets].
  - apply silent_ret.
  - apply silent_bind; [apply silent_check_target | intros _; exact IH].
Qed.

Lemma silent_run_continuous_verifications :
  silent (run_continuous_verifications : @M World unit).
Proof.
  unfold run_continuous_verifications.
  apply silent_try; [|intros e h E].
  - apply silent_bind; [apply silent_get_self | intro; apply silent_check_targets].
  - destruct (is_CtfConditionError e); [|discriminate].
    injection E as <-. silence.
Qed.

(** ** One poll, phase by phase *)

Lemma logged_logged (a b : list event) (m : machine World) :
  logged b (logged a m) = logged (a ++ b) m.
Proof. unfold logged. simpl. now rewrite app_assoc. Qed.

Lemma run_continuous_verifications_eq (m : machine World) :
  run_continuous_verifications m
  = match check_targets (values (cfs_targets (self m))) m with
    | (Ok a, mc) => (Ok a, mc)
    | (Raise e, mc) =>
        (Raise e,
         if is_CtfConditionError e
         then logged [LogError "Test condition(s) failed in Post Command."] mc
         else mc)
    end.
Proof.
  unfold run_continuous_verifications, try_except, bind, get_self.
  destruct (check_targets _ m) as [[a|e] mc]; [reflexivity|].
  destruct (is_CtfConditionError e); reflexivity.
Qed.

Lemma pre_command_eq (m : machine World) :
  pre_command m
  = match ingest m with
    | (Ok _, mi) =>
        match run_continuous_verifications mi with
        | (Ok a, mv) => (Ok a, mv)
        | (Raise e, mv) =>
            (Raise e,
             if is_CtfConditionError e then mv
             else if is_CtfTestError e then logged [LogDebug e] mv
             else mv)
        end
    | (Raise e, mi) => (Raise e, mi)
    end.
Proof.
  unfold pre_command, ingest, bind, emit, TimeInterface_pre_command, ret, get_self.
  destruct (read_targets _ _) as [[[]|e] mi]; [|reflexivity].
  unfold try_except.
  destruct (run_continuous_verifications mi) as [[a|e] mv]; [reflexivity|].
  destruct (is_CtfConditionError e); [reflexivity|].
  destruct (is_CtfTestError e); reflexivity.
Qed.

Lemma poll_eq (m : machine World) :
  poll m
  = match pre_command m with
    | (Ok _, m1) =>
        if Qlt_bool (ctf_verification_poll_period (self m1)) 0
        then (Raise (Exn ValueError "sleep length must be non-negative"),
              logged [CallPostCommand] m1)
        else (Ok tt,
              ticked (logged [CallPostCommand;
                              Sleep (ctf_verification_poll_period (self m1))] m1))
    | (Raise e, m1) =>
        (Raise e,
         if is_CtfTestError e
         then logged [LogError "Error: CfsTimeManager: Pre-Command Failed"; LogDebug e] m1
         else m1)
    end.
Proof.
  unfold poll, bind, try_except.
  destruct (pre_command m) as [[[]|e] m1].
  - unfold post_command, bind, emit, TimeInterface_post_command, ret, get_self,
      time_sleep.
    cbn [self].
    destruct (Qlt_bool (ctf_verification_poll_period (self m1)) 0).
    + reflexivity.
    + unfold set_exec_time, ticked, logged. cbn. now rewrite <- app_assoc.
  - destruct (is_CtfTestError e); [|reflexivity].
    unfold handle_test_exception_during_wait, bind, emit, raise. cbn.
    unfold logged. cbn. now rewrite <- app_assoc.
Qed.

(** ** Frames *)

Lemma ingest_frame (m : machine World) :
  self (snd (ingest m)) = self m /\
  exists new, trace (snd (ingest m)) = trace m ++ CallPreCommand :: new /\
              forallb inner new = true.
Proof.
  assert (E : ingest m
              = bind TimeInterface_pre_command
                  (fun _ => bind get_self
                     (fun s => read_targets (values (cfs_targets s))))
                  (logged [CallPreCommand] m)) by reflexivity.
  assert (Hs : silent (bind (TimeInterface_pre_command : @M World unit)
                         (fun _ => bind get_self
                            (fun s => read_targets (values (cfs_targets s)))))).
  { apply silent_bind; [apply silent_ret | intros _].
    apply silent_bind; [apply silent_get_self | intro].
    apply silent_read_targets. }
  rewrite E. destruct (Hs (logged [CallPreCommand] m)) as [H1 [new [H2 H3]]].
  split; [exact H1|]. exists new. split; [|exact H3].
  rewrite H2. cbn [logged trace]. now rewrite <- app_assoc.
Qed.

Lemma pre_command_frame (m : machine World) :
  self (snd (pre_command m)) = self m /\
  exists new, trace (snd (pre_command m)) = trace m ++ CallPreCommand :: new /\
              forallb inner new = true.
Proof.
  rewrite pre_command_eq.
  destruct (ingest_frame m) as [H1 [new [H2 H3]]].
  destruct (ingest m) as [[[]|e] mi]; cbn [snd] in *.
  - destruct (silent_run_continuous_verifications mi) as [V1 [new' [V2 V3]]].
    destruct (run_continuous_verifications mi) as [[a|e] mv]; cbn [snd] in *.
    + split; [congruence|]. exists (new ++ new'). split.
      * rewrite V2, H2, <- app_assoc. reflexivity.
      * now rewrite forallb_app, H3, V3.
    + assert (G : self mv = self m /\
                  exists n, trace mv = trace m ++ CallPreCommand :: n /\
                            forallb inner n = true).
      { split; [congruence|]. exists (new ++ new'). split.
        - rewrite V2, H2, <- app_assoc. reflexivity.
        - now rewrite forallb_app, H3, V3. }
      destruct (is_CtfConditionError e); [exact G|].
      destruct (is_CtfTestError e); [|exact G].
      destruct G as [G1 [n [G2 G3]]]. split; [exact G1|].
      exists (n ++ [LogDebug e]). split.
      * cbn [logged trace]. rewrite G2, <- app_assoc. reflexivity.
      * now rewrite forallb_app, G3.
  - split; [exact H1|]. exists new. now split.
Qed.

(** ** Reading traces *)

Lemma hook_calls_app (a b : list event) :
  hook_calls (a ++ b) = hook_calls a ++ hook_calls b.
Proof. apply filter_app. Qed.

Lemma count_app (f : event -> bool) (a b : list event) :
  count f (a ++ b) = (count f a + count f b)%nat.
Proof. unfold count. now rewrite filter_app, length_app. Qed.

Lemma inner_hook_calls (new : list event) :
  forallb inner new = true -> hook_calls new = [].
Proof.
  induction new as [|ev new IH]; [reflexivity|].
  cbn [forallb]. rewrite andb_true_iff. intros [H1 H2].
  unfold hook_calls. cbn [filter]. unfold inner in H1.
  destruct (is_hook ev); [discriminate|]. now apply IH.
Qed.

Lemma inner_sleeps (new : list event) :
  forallb inner new = true -> count is_sleep new = O.
Proof.
  induction new as [|ev new IH]; [reflexivity|].
  cbn [forallb]. rewrite andb_true_iff. intros [H1 H2].
  unfold count. cbn [filter]. unfold inner in H1.
  destruct (is_sleep ev); [now rewrite andb_false_r in H1|]. now apply IH.
Qed.

Lemma reads_app (a b : list event) : reads (a ++ b) = reads a ++ reads b.
Proof.
  induction a as [|ev a IH]; [reflexivity|].
  destruct ev; cbn [app reads]; now rewrite IH.
Qed.

(** ** The three ways a poll can end *)

Lemma poll_cases (m : machine World) :
  exists new, forallb inner new = true /\
    ((exists e m', poll m = (Raise e, m') /\ self m' = self m /\
        trace m' = trace m ++ CallPreCommand :: new)
     \/
     (exists e m', poll m = (Raise e, m') /\ self m' = self m /\
        trace m' = trace m ++ CallPreCommand :: new ++ [CallPostCommand] /\
        ctf_verification_poll_period (self m) < 0)
     \/
     (exists m', poll m = (Ok tt, m') /\ self m' = self (ticked m) /\
        trace m' = trace m ++ CallPreCommand :: new
                     ++ [CallPostCommand; Sleep (ctf_verification_poll_period (self m))] /\
        ~ ctf_verification_poll_period (self m) < 0)).
Proof.
  rewrite poll_eq.
  destruct (pre_command_frame m) as [H1 [new [H2 H3]]].
  destruct (pre_command m) as [[[]|e] m1]; cbn [snd] in *.
  - exists new. split; [exact H3|]. right. rewrite H1.
    destruct (Qlt_bool (ctf_verification_poll_period (self m)) 0) eqn:E.
    + left. eexists. eexists. split; [reflexivity|].
      split; [exact H1|]. split.
      * cbn [logged trace]. rewrite H2, <- app_assoc. reflexivity.
      * now apply Qlt_bool_iff.
    + right. eexists. split; [reflexivity|]. split.
      * unfold ticked, logged. cbn. now rewrite H1.
      * split.
        -- cbn [ticked logged trace]. rewrite H2, <- app_assoc. reflexivity.
        -- intro Hlt. apply Qlt_bool_iff in Hlt. congruence.
  - destruct (is_CtfTestError e).
    + exists (new ++ [LogError "Error: CfsTimeManager: Pre-Command Failed"; LogDebug e]).
      split; [now rewrite forallb_app, H3|].
      left. eexists. eexists. split; [reflexivity|].
      split; [exact H1|].
      cbn [logged trace]. rewrite H2, <- app_assoc. reflexivity.
    + exists new. split; [exact H3|].
      left. eexists. eexists. split; [reflexivity|]. now split.
Qed.

(** ** The loop *)

Lemma wait_loop_add (a b : nat) (start seconds : Q) (m : machine World) :
  wait_loop (a + b) start seconds m
  = match wait_loop a start seconds m with
    | (OutOfFuel, ma) => wait_loop b start seconds ma
    | r => r
    end.
Proof.
  revert m. induction a as [|a IH]; intro m.
  - cbn [Nat.add wait_loop].
    destruct (Qlt_bool (exec_time (self m)) (start + seconds)) eqn:E.
    + reflexivity.
    + destruct b; cbn [wait_loop]; now rewrite E.
  - cbn [Nat.add wait_loop].
    destruct (Qlt_bool (exec_time (self m)) (start + seconds)); [|reflexivity].
    destruct (poll m) as [[[]|e] m1]; [apply IH | reflexivity].
Qed.

(** Once the loop has ended, more fuel changes nothing. *)
Lemma wait_loop_more_fuel (a b : nat) (start seconds : Q) (m m' : machine World)
  (o : outcome) :
  wait_loop a start seconds m = (o, m') -> o <> OutOfFuel -> (a <= b)%nat ->
  wait_loop b start seconds m = (o, m').
Proof.
  intros H Ho Hab. replace b with (a + (b - a))%nat by lia.
  rewrite wait_loop_add, H. destruct o; congruence.
Qed.

Lemma out_of_fuel_test (k : nat) (start seconds : Q) (m mk : machine World) :
  wait_loop k start seconds m = (OutOfFuel, mk) ->
  Qlt_bool (exec_time (self mk)) (start + seconds) = true.
Proof.
  revert m. induction k as [|k IH]; intro m; cbn [wait_loop];
    destruct (Qlt_bool (exec_time (self m)) (start + seconds)) eqn:E;
    try discriminate.
  - intro H. injection H as <-. exact E.
  - destruct (poll m) as [[[]|e] m1]; [apply IH | discriminate].
Qed.

Lemma advance_shift (p : Q) (k : nat) (t : Q) :
  advance p k (t + p) = advance p (S k) t.
Proof. unfold advance. now rewrite Nat.iter_succ_r. Qed.

(** What a run of the loop looks like, whatever way it ends. *)
Lemma wait_loop_shape (fuel : nat) (start seconds : Q) (m : machine World) :
  exists k new,
    (k <= fuel)%nat /\
    trace (snd (wait_loop fuel start seconds m)) = trace m ++ new /\
    exec_time (self (snd (wait_loop fuel start seconds m)))
    = advance (ctf_verification_poll_period (self m)) k (exec_time (self m)) /\
    ctf_verification_poll_period (self (snd (wait_loop fuel start seconds m)))
    = ctf_verification_poll_period (self m) /\
    cfs_targets (self (snd (wait_loop fuel start seconds m))) = cfs_targets (self m) /\
    count is_sleep new = k /\
    match fst (wait_loop fuel start seconds m) with
    | Returned => hook_calls new = paired k
    | OutOfFuel => hook_calls new = paired k /\ k = fuel
    | Raised _ =>
        hook_calls new = paired k ++ [CallPreCommand] \/
        hook_calls new = paired (S k)
    end.
Proof.
  revert m. induction fuel as [|fuel IH]; intro m; cbn [wait_loop].
  - exists O, []. rewrite app_nil_r.
    destruct (Qlt_bool (exec_time (self m)) (start + seconds));
      cbn; repeat split; reflexivity.
  - destruct (Qlt_bool (exec_time (self m)) (start + seconds)).
    2:{ exists O, []. rewrite app_nil_r. cbn. repeat split; lia. }
    destruct (poll_cases m) as [new [Hn [C|[C|C]]]].
    + destruct C as [e [m' [Hp [Hs Ht]]]]. rewrite Hp. cbn [fst snd].
      exists O, (CallPreCommand :: new). rewrite Hs.
      repeat split; try lia; try assumption.
      * unfold count. cbn [filter is_sleep]. now apply inner_sleeps.
      * left. unfold hook_calls. cbn [filter is_hook paired app].
        f_equal. now apply inner_hook_calls.
    + destruct C as [e [m' [Hp [Hs [Ht _]]]]]. rewrite Hp. cbn [fst snd].
      exists O, (CallPreCommand :: new ++ [CallPostCommand]). rewrite Hs.
      repeat split; try lia; try assumption.
      * change (CallPreCommand :: new ++ [CallPostCommand])
          with ([CallPreCommand] ++ new ++ [CallPostCommand]).
        rewrite !count_app, (inner_sleeps new Hn). reflexivity.
      * right.
        change (CallPreCommand :: new ++ [CallPostCommand])
          with ([CallPreCommand] ++ new ++ [CallPostCommand]).
        rewrite !hook_calls_app, (inner_hook_calls new Hn). reflexivity.
    + destruct C as [m' [Hp [Hs [Ht _]]]]. rewrite Hp.
      destruct (IH m') as [k [new' [Hk [T [X [P [R [S H]]]]]]]].
      rewrite Hs in X, P, R. cbn [ticked self exec_time
        ctf_verification_poll_period cfs_targets] in X, P, R.
      set (p := ctf_verification_poll_period (self m)) in *.
      exists (Datatypes.S k),
        ((CallPreCommand :: new ++ [CallPostCommand; Sleep p]) ++ new').
      split; [lia|]. split; [rewrite T, Ht; now rewrite <- app_assoc|].
      split; [rewrite X; apply advance_shift|].
      split; [exact P|]. split; [exact R|].
      assert (Hc : count is_sleep (CallPreCommand :: new ++ [CallPostCommand; Sleep p]) = 1%nat).
      { change (CallPreCommand :: new ++ [CallPostCommand; Sleep p])
          with ([CallPreCommand] ++ new ++ [CallPostCommand; Sleep p]).
        rewrite !count_app, (inner_sleeps new Hn). reflexivity. }
      assert (Hh : hook_calls (CallPreCommand :: new ++ [CallPostCommand; Sleep p])
                   = [CallPreCommand; CallPostCommand]).
      { change (CallPreCommand :: new ++ [CallPostCommand; Sleep p])
          with ([CallPreCommand] ++ new ++ [CallPostCommand; Sleep p]).
        rewrite !hook_calls_app, (inner_hook_calls new Hn). reflexivity. }
      split; [rewrite count_app, Hc, S; reflexivity|].
      rewrite hook_calls_app, Hh.
      destruct (fst (wait_loop fuel start seconds m')).
      * rewrite H. reflexivity.
      * destruct H as [H|H]; rewrite H; [left|right]; reflexivity.
      * destruct H as [H ->]. rewrite H. split; reflexivity.
Qed.

Lemma wait_eq (fuel : nat) (seconds : Q) (m : machine World) :
  wait fuel seconds m = wait_loop fuel (exec_time (self m)) seconds m.
Proof. reflexivity. Qed.

Lemma advance_le (p : Q) (k : nat) (t : Q) : 0 <= p -> t <= advance p k t.
Proof.
  intro Hp. induction k as [|k IH].
  - apply Qle_refl.
  - change (advance p (S k) t) with (advance p k t + p). lra.
Qed.

Lemma advance_eq (p : Q) (k : nat) (t : Q) :
  advance p k t == t + inject_Z (Z.of_nat k) * p.
Proof.
  induction k as [|k IH].
  - cbn. ring.
  - change (advance p (S k) t) with (advance p k t + p).
    rewrite IH, Nat2Z.inj_succ. unfold Z.succ. rewrite inject_Z_plus. ring.
Qed.

(** The loop test after [j] polls, against the number of polls needed. *)
Lemma loop_test_iff (p start seconds : Q) (j : nat) :
  0 < p ->
  advance p j start < start + seconds
  <-> (j < Z.to_nat (Qceiling (seconds / p)))%nat.
Proof.
  intro Hp. rewrite advance_eq.
  assert (Hdiv : seconds / p * p == seconds) by (field; lra).
  split.
  - intro H.
    assert (H1 : inject_Z (Z.of_nat j) < seconds / p).
    { apply Qlt_shift_div_l; [exact Hp | lra]. }
    assert (H2 : inject_Z (Z.of_nat j) < inject_Z (Qceiling (seconds / p))).
    { eapply Qlt_le_trans; [exact H1 | apply Qle_ceiling]. }
    rewrite <- Zlt_Qlt in H2. lia.
  - intro H.
    assert (H1 : (Z.of_nat j <= Qceiling (seconds / p) - 1)%Z) by lia.
    rewrite Zle_Qle in H1.
    assert (H2 : inject_Z (Z.of_nat j) < seconds / p).
    { eapply Qle_lt_trans; [exact H1 | apply Qceiling_lt]. }
    assert (H3 : inject_Z (Z.of_nat j) * p < seconds / p * p).
    { apply Qmult_lt_r; assumption. }
    rewrite Hdiv in H3. lra.
Qed.

(** ** Targets that never fail *)

Lemma read_targets_never_fail (l : list (option (CfsController World))) :
  (forall x, In x l ->
     exists t i, x = Some t /\ cfs t = Some i /\
       (forall w, fst (read_sb_packets i w) = None) /\
       (forall w, fst (check_tlm_conditions i w) = None)) ->
  forall m, fst (read_targets l m) = Ok tt.
Proof.
  induction l as [|x l IH]; intros H m; [reflexivity|].
  cbn [read_targets]. unfold bind.
  destruct (H x (or_introl eq_refl)) as [t [i [-> [Hc [Hr _]]]]].
  assert (E : fst (read_target (Some t) m) = Ok tt).
  { unfold read_target, try_except, extern. rewrite Hc.
    specialize (Hr (world m)).
    destruct (read_sb_packets i (world m)) as [r w]. cbn in Hr. now subst r. }
  destruct (read_target (Some t) m) as [[[]|e] m1]; cbn in E; [|discriminate].
  apply IH. intros y Hy. apply H. now right.
Qed.

Lemma check_targets_never_fail (l : list (option (CfsController World))) :
  (forall x, In x l ->
     exists t i, x = Some t /\ cfs t = Some i /\
       (forall w, fst (read_sb_packets i w) = None) /\
       (forall w, fst (check_tlm_conditions i w) = None)) ->
  forall m, fst (check_targets l m) = Ok tt.
Proof.
  induction l as [|x l IH]; intros H m; [reflexivity|].
  cbn [check_targets]. unfold bind.
  destruct (H x (or_introl eq_refl)) as [t [i [-> [Hc [_ Hk]]]]].
  assert (E : fst (check_target (Some t) m) = Ok tt).
  { unfold check_target, extern. rewrite Hc.
    specialize (Hk (world m)).
    destruct (check_tlm_conditions i (world m)) as [r w]. cbn in Hk. now subst r. }
  destruct (check_target (Some t) m) as [[[]|e] m1]; cbn in E; [|discriminate].
  apply IH. intros y Hy. apply H. now right.
Qed.

Lemma poll_never_fails (m : machine World) :
  never_fails (cfs_targets (self m)) ->
  ~ ctf_verification_poll_period (self m) < 0 ->
  fst (poll m) = Ok tt.
Proof.
  intros H Hp. rewrite poll_eq, pre_command_eq.
  destruct (ingest_frame m) as [Hs _].
  assert (E : fst (ingest m) = Ok tt).
  { unfold ingest, bind, emit, TimeInterface_pre_command, ret, get_self. cbn [self].
    pose proof (read_targets_never_fail _ H
                  {| self := self m; world := world m;
                     trace := trace m ++ [CallPreCommand] |}) as R.
    destruct (read_targets _ _) as [[[]|e] m1]; cbn in R; [reflexivity|discriminate]. }
  destruct (ingest m) as [[[]|e] mi]; cbn in E; [|discriminate]. cbn [snd] in Hs.
  rewrite run_continuous_verifications_eq, Hs.
  pose proof (check_targets_never_fail _ H mi) as C.
  destruct (check_targets _ mi) as [[[]|e] mc] eqn:Ec; cbn in C; [|discriminate].
  pose proof (silent_check_targets (values (cfs_targets (self m))) mi) as [Sc _].
  rewrite Ec in Sc. cbn [snd] in Sc. rewrite Sc, Hs.
  destruct (Qlt_bool (ctf_verification_poll_period (self m)) 0) eqn:Q; [|reflexivity].
  apply Qlt_bool_iff in Q. contradiction.
Qed.

(** The loop on targets that never fail: from a machine that has done [j]
    polls, the [d] that remain are done and the loop returns. *)
Lemma wait_loop_count (start seconds : Q) (d : nat) :
  forall (j fuel : nat) (m : machine World),
    0 < ctf_verification_poll_period (self m) ->
    never_fails (cfs_targets (self m)) ->
    (j + d = Z.to_nat (Qceiling (seconds / ctf_verification_poll_period (self m))))%nat ->
    (d <= fuel)%nat ->
    exec_time (self m) = advance (ctf_verification_poll_period (self m)) j start ->
    exists m' new,
      wait_loop fuel start seconds m = (Returned, m') /\
      exec_time (self m') = advance (ctf_verification_poll_period (self m)) (j + d) start /\
      trace m' = trace m ++ new /\
      hook_calls new = paired d /\
      count is_sleep new = d.
Proof.
  induction d as [|d IH]; intros j fuel m Hp Hq Hn Hf Ht.
  - exists m, []. rewrite app_nil_r, Nat.add_0_r.
    assert (E : Qlt_bool (exec_time (self m)) (start + seconds) = false).
    { destruct (Qlt_bool (exec_time (self m)) (start + seconds)) eqn:E; [|reflexivity].
      apply Qlt_bool_iff in E. rewrite Ht in E.
      apply loop_test_iff in E; [lia | exact Hp]. }
    repeat split; try assumption.
    destruct fuel; cbn [wait_loop]; now rewrite E.
  - destruct fuel as [|fuel]; [lia|]. cbn [wait_loop].
    assert (E : Qlt_bool (exec_time (self m)) (start + seconds) = true).
    { apply Qlt_bool_iff. rewrite Ht. apply loop_test_iff; [exact Hp | lia]. }
    rewrite E.
    assert (Hnn : ~ ctf_verification_poll_period (self m) < 0) by lra.
    pose proof (poll_never_fails m Hq Hnn) as Hok.
    destruct (poll_cases m) as [new [Hin [C|[C|C]]]].
    + destruct C as [e [m1 [Hpoll _]]]. rewrite Hpoll in Hok. discriminate.
    + destruct C as [e [m1 [Hpoll _]]]. rewrite Hpoll in Hok. discriminate.
    + destruct C as [m1 [Hpoll [Hs [Htr _]]]]. rewrite Hpoll.
      set (p := ctf_verification_poll_period (self m)) in *.
      assert (P1 : ctf_verification_poll_period (self m1) = p) by now rewrite Hs.
      assert (R1 : cfs_targets (self m1) = cfs_targets (self m)) by now rewrite Hs.
      assert (X1 : exec_time (self m1) = advance p (S j) start).
      { rewrite Hs. cbn [ticked self exec_time]. fold p. now rewrite Ht. }
      destruct (IH (S j) fuel m1) as [m' [new' [W [X [T [Hh Hc]]]]]].
      * now rewrite P1.
      * now rewrite R1.
      * rewrite P1. lia.
      * lia.
      * now rewrite P1.
      * exists m', ((CallPreCommand :: new ++ [CallPostCommand; Sleep p]) ++ new').
        split; [exact W|].
        split; [rewrite X, P1; f_equal; lia|].
        split; [rewrite T, Htr; now rewrite <- app_assoc|].
        change (CallPreCommand :: new ++ [CallPostCommand; Sleep p])
          with ([CallPreCommand] ++ new ++ [CallPostCommand; Sleep p]).
        split.
        -- rewrite !hook_calls_app, (inner_hook_calls new Hin), Hh. reflexivity.
        -- rewrite !count_app, (inner_sleeps new Hin), Hc. reflexivity.
Qed.

(** ** A check that raises *)

Lemma check_targets_app (a b : list (option (CfsController World)))
  (m : machine World) :
  check_targets (a ++ b) m
  = match check_targets a m with
    | (Ok _, m1) => check_targets b m1
    | (Raise e, m1) => (Raise e, m1)
    end.
Proof.
  revert m. induction a as [|x a IH]; intro m; [reflexivity|].
  cbn [app check_targets]. unfold bind.
  destruct (check_target x m) as [[[]|e] m1]; [apply IH | reflexivity].
Qed.

Lemma condition_error_is_test_error (e : exn) :
  is_CtfConditionError e = true -> is_CtfTestError e = true.
Proof.
  unfold is_CtfConditionError, is_CtfTestError.
  destruct (cls e); congruence.
Qed.

(** What the poll makes of an exception raised by a check: the reads are
    done, [pre_command] has been entered, nothing but log records follow
    the failing call, and the exception leaves the poll. *)
Lemma poll_check_raises (m : machine World) (e : exn) :
  check_raises m e ->
  exists mx n,
    self mx = self m /\
    trace mx = trace m ++ CallPreCommand :: n /\
    forallb inner n = true /\
    poll m
    = (Raise e,
       let m1 :=
         if is_CtfConditionError e
         then logged [LogError "Test condition(s) failed in Post Command."] mx
         else if is_CtfTestError e then logged [LogDebug e] mx else mx in
       if is_CtfTestError e
       then logged [LogError "Error: CfsTimeManager: Pre-Command Failed"; LogDebug e] m1
       else m1).
Proof.
  intros [mi [before [t [i [after [mc [w [Hi [Hv [Hc [Hb Hk]]]]]]]]]]].
  destruct (ingest_frame m) as [S1 [n1 [T1 I1]]]. rewrite Hi in S1, T1. cbn [snd] in *.
  destruct (silent_check_targets before mi) as [S2 [n2 [T2 I2]]].
  rewrite Hb in S2, T2. cbn [snd] in *.
  set (ev := CallCheckTlmConditions (name (config t))).
  exists {| self := self mc; world := w; trace := trace mc ++ [ev] |}, (n1 ++ n2 ++ [ev]).
  split; [cbn [self]; congruence|].
  split; [cbn [trace]; rewrite T2, T1, <- !app_assoc; reflexivity|].
  split; [now rewrite !forallb_app, I1, I2|].
  assert (V : run_continuous_verifications mi
              = (Raise e,
                 if is_CtfConditionError e
                 then logged [LogError "Test condition(s) failed in Post Command."]
                        {| self := self mc; world := w; trace := trace mc ++ [ev] |}
                 else {| self := self mc; world := w; trace := trace mc ++ [ev] |})).
  { rewrite run_continuous_verifications_eq, S1, Hv, check_targets_app, Hb.
    cbn [check_targets]. unfold bind, check_target. rewrite Hc.
    unfold extern. rewrite Hk. reflexivity. }
  rewrite poll_eq, pre_command_eq, Hi, V.
  destruct (is_CtfConditionError e) eqn:Ec.
  - rewrite (condition_error_is_test_error e Ec). reflexivity.
  - destruct (is_CtfTestError e); reflexivity.
Qed.

Lemma wait_aborts (k : nat) (seconds : Q) (m mk m' : machine World) (e : exn) :
  wait k seconds m = (OutOfFuel, mk) ->
  poll mk = (Raise e, m') ->
  forall fuel, (k < fuel)%nat -> wait fuel seconds m = (Raised e, m').
Proof.
  intros H Hp fuel Hf. rewrite wait_eq in *.
  replace fuel with (k + S (fuel - k - 1))%nat by lia.
  rewrite wait_loop_add, H. cbn [wait_loop].
  rewrite (out_of_fuel_test _ _ _ _ _ H), Hp. reflexivity.
Qed.

(** ** Reads that raise *)

Lemma read_target_contained (t : CfsController World) (m : machine World) :
  (forall i w e w', cfs t = Some i -> read_sb_packets i w = (Some e, w') ->
     is_Exception e = true) ->
  exists m', read_target (Some t) m = (Ok tt, m') /\
             reads (trace m') = reads (trace m) ++ connected [Some t].
Proof.
  intro H. unfold read_target, try_except. cbn [connected].
  destruct (cfs t) as [i|] eqn:Hc.
  - unfold extern.
    destruct (read_sb_packets i (world m)) as [[e|] w] eqn:R.
    + rewrite (H i (world m) e w eq_refl R).
      eexists. split; [reflexivity|].
      cbn [trace]. rewrite !reads_app. cbn. now rewrite !app_nil_r.
    + eexists. split; [reflexivity|].
      cbn [trace]. now rewrite reads_app.
  - eexists. split; [reflexivity|].
    cbn [trace]. rewrite !reads_app. cbn. now rewrite !app_nil_r.
Qed.

Lemma read_targets_contained (l : list (option (CfsController World))) :
  (forall x, In x l ->
     exists t, x = Some t /\
       forall i w e w', cfs t = Some i -> read_sb_packets i w = (Some e, w') ->
         is_Exception e = true) ->
  forall m, exists m', read_targets l m = (Ok tt, m') /\
                       reads (trace m') = reads (trace m) ++ connected l.
Proof.
  induction l as [|x l IH]; intros H m.
  - exists m. split; [reflexivity|]. now rewrite app_nil_r.
  - destruct (H x (or_introl eq_refl)) as [t [-> Ht]].
    destruct (read_target_contained t m Ht) as [m1 [R1 T1]].
    destruct (IH (fun y Hy => H y (or_intror Hy)) m1) as [m' [R T]].
    exists m'. cbn [read_targets]. unfold bind. rewrite R1. split; [exact R|].
    rewrite T, T1, <- app_assoc. f_equal.
    cbn [connected]. destruct (cfs t); reflexivity.
Qed.

(** ** The claims about the loop as a whole *)

(** C10. A wait of zero or negative length does nothing: whatever fuel it
    is given, it returns at once and leaves the machine as it was, so no
    hook, no read, no check and no sleep happens and [exec_time] keeps its
    value. *)
Theorem wait_nonpositive (fuel : nat) (seconds : Q) (m : machine World) :
  seconds <= 0 -> wait fuel seconds m = (Returned, m).
Proof.
  intro H. rewrite wait_eq.
  assert (E : Qlt_bool (exec_time (self m)) (exec_time (self m) + seconds) = false).
  { apply Qlt_bool_false_iff. lra. }
  destruct fuel; cbn [wait_loop]; now rewrite E.
Qed.

(** C1. With a positive poll period and targets whose reads and checks
    never raise, a wait of [seconds > 0] returns after exactly
    [ceil (seconds / p)] polls (each one [pre_command], [post_command] and
    a sleep), and [exec_time] has advanced by [ceil (seconds / p) * p]. *)
Theorem wait_poll_count (seconds : Q) (m : machine World) :
  0 < seconds ->
  0 < ctf_verification_poll_period (self m) ->
  never_fails (cfs_targets (self m)) ->
  let p := ctf_verification_poll_period (self m) in
  let n := Qceiling (seconds / p) in
  exists m' new,
    (forall fuel, (Z.to_nat n <= fuel)%nat -> wait fuel seconds m = (Returned, m')) /\
    exec_time (self m') == exec_time (self m) + inject_Z n * p /\
    trace m' = trace m ++ new /\
    hook_calls new = paired (Z.to_nat n) /\
    count is_sleep new = Z.to_nat n.
Proof.
  intros Hs Hp Hq p n.
  assert (Hn : (0 <= n)%Z).
  { unfold n. rewrite <- (Qceiling_Z 0). apply Qceiling_resp_le.
    apply Qle_shift_div_l; [exact Hp|].
    change (inject_Z 0) with 0. lra. }
  destruct (wait_loop_count (exec_time (self m)) seconds (Z.to_nat n) O
              (Z.to_nat n) m Hp Hq eq_refl (le_n _) eq_refl)
    as [m' [new [W [X [T [Hh Hc]]]]]].
  exists m', new. split.
  - intros fuel Hf. rewrite wait_eq.
    apply (wait_loop_more_fuel (Z.to_nat n)); [exact W | discriminate | exact Hf].
  - split; [|now repeat split].
    rewrite X. cbn [Nat.add]. fold p. rewrite advance_eq, Z2Nat.id by exact Hn.
    reflexivity.
Qed.

(** C2. When the first [k] polls of a wait complete and, in the poll after
    them, the check of a target raises a [CtfConditionError], the wait ends
    with that exception whatever further fuel it has: its trace then shows
    [k] complete polls, one last [pre_command] and [k] sleeps, and
    [exec_time] stands at exactly [k] increments above its starting
    value. *)
Theorem condition_failure_aborts (k : nat) (seconds : Q) (m mk : machine World)
  (e : exn) :
  wait k seconds m = (OutOfFuel, mk) ->
  check_raises mk e ->
  is_CtfConditionError e = true ->
  let p := ctf_verification_poll_period (self m) in
  exists m' new,
    (forall fuel, (k < fuel)%nat -> wait fuel seconds m = (Raised e, m')) /\
    exec_time (self m') = advance p k (exec_time (self m)) /\
    exec_time (self m') == exec_time (self m) + inject_Z (Z.of_nat k) * p /\
    trace m' = trace m ++ new /\
    hook_calls new = paired k ++ [CallPreCommand] /\
    count is_sleep new = k.
Proof.
  intros Hk Hc He p.
  destruct (poll_check_raises mk e Hc) as [mx [n [Sx [Tx [In Hp]]]]].
  rewrite He, (condition_error_is_test_error e He) in Hp. cbv zeta in Hp.
  pose proof (wait_loop_shape k (exec_time (self m)) seconds m) as Sh.
  rewrite <- wait_eq, Hk in Sh. cbn [fst snd] in Sh.
  destruct Sh as [k' [new [_ [T [X [_ [_ [Cs [Hh ->]]]]]]]]].
  eexists. exists (new ++ CallPreCommand :: n
                     ++ [LogError "Test condition(s) failed in Post Command."]
                     ++ [LogError "Error: CfsTimeManager: Pre-Command Failed"; LogDebug e]).
  split; [exact (wait_aborts k seconds m mk _ e Hk Hp)|].
  cbn [logged self trace]. rewrite Sx.
  split; [exact X|]. split; [rewrite X; apply advance_eq|].
  split; [rewrite Tx, T, <- !app_assoc; reflexivity|].
  change (CallPreCommand :: n ++ ?a ++ ?b) with ([CallPreCommand] ++ n ++ a ++ b).
  split.
  - rewrite !hook_calls_app, (inner_hook_calls n In), Hh. reflexivity.
  - rewrite !count_app, (inner_sleeps n In), Cs. cbn. lia.
Qed.

(** C8. When the first [k] polls of a wait complete and, in the poll after
    them, the check of a target raises a [CtfTestError] that is not a
    [CtfConditionError], the wait ends with that exception whatever further
    fuel it has.  Before it leaves, the exception is logged at debug level
    by [pre_command] and again, after an error record, by [wait]; the
    failed poll is not run again: the trace shows [k] complete polls, one
    last [pre_command] and [k] sleeps, and [exec_time] stands at [k]
    increments. *)
Theorem test_error_aborts (k : nat) (seconds : Q) (m mk : machine World)
  (e : exn) :
  wait k seconds m = (OutOfFuel, mk) ->
  check_raises mk e ->
  is_CtfTestError e = true ->
  is_CtfConditionError e = false ->
  let p := ctf_verification_poll_period (self m) in
  exists m' new earlier,
    (forall fuel, (k < fuel)%nat -> wait fuel seconds m = (Raised e, m')) /\
    exec_time (self m') = advance p k (exec_time (self m)) /\
    trace m' = trace m ++ new /\
    new = earlier ++ [LogDebug e;
                      LogError "Error: CfsTimeManager: Pre-Command Failed";
                      LogDebug e] /\
    hook_calls new = paired k ++ [CallPreCommand] /\
    count is_sleep new = k.
Proof.
  intros Hk Hc Ht He p.
  destruct (poll_check_raises mk e Hc) as [mx [n [Sx [Tx [In Hp]]]]].
  rewrite He, Ht in Hp. cbv zeta in Hp.
  pose proof (wait_loop_shape k (exec_time (self m)) seconds m) as Sh.
  rewrite <- wait_eq, Hk in Sh. cbn [fst snd] in Sh.
  destruct Sh as [k' [new [_ [T [X [_ [_ [Cs [Hh ->]]]]]]]]].
  eexists.
  exists ((new ++ CallPreCommand :: n)
            ++ [LogDebug e;
                LogError "Error: CfsTimeManager: Pre-Command Failed"; LogDebug e]).
  exists (new ++ CallPreCommand :: n).
  split; [exact (wait_aborts k seconds m mk _ e Hk Hp)|].
  cbn [logged self trace]. rewrite Sx.
  split; [exact X|].
  split; [rewrite Tx, T, <- !app_assoc; reflexivity|].
  split; [reflexivity|].
  change (CallPreCommand :: n) with ([CallPreCommand] ++ n).
  split.
  - rewrite !hook_calls_app, (inner_hook_calls n In), Hh.
    unfold hook_calls. cbn [filter is_hook]. now rewrite !app_nil_r.
  - rewrite !count_app, (inner_sleeps n In), Cs. cbn. lia.
Qed.

(** C9. With a positive poll period [exec_time] never goes down: a wait,
    however it ends and at whatever point of its run it is observed, leaves
    [exec_time] at or above the value it started from and at or above the
    value observed earlier in that run; a single poll never lowers it; the
    other operations of the manager leave it unchanged. *)
Theorem exec_time_monotone (m : machine World) :
  0 < ctf_verification_poll_period (self m) ->
  (forall fuel seconds,
      exec_time (self m) <= exec_time (self (snd (wait fuel seconds m)))) /\
  (forall a b seconds, (a <= b)%nat ->
      exec_time (self (snd (wait a seconds m)))
      <= exec_time (self (snd (wait b seconds m)))) /\
  exec_time (self m) <= exec_time (self (snd (poll m))) /\
  exec_time (self (snd (pre_command m))) = exec_time (self m) /\
  exec_time (self (snd (post_command m))) = exec_time (self m) /\
  exec_time (self (snd (run_continuous_verifications m))) = exec_time (self m) /\
  (forall e msg do_raise,
      exec_time (self (snd (handle_test_exception_during_wait e msg do_raise m)))
      = exec_time (self m)).
Proof.
  intro Hp.
  assert (Hrun : forall fuel start seconds (x : machine World),
             0 < ctf_verification_poll_period (self x) ->
             exec_time (self x)
             <= exec_time (self (snd (wait_loop fuel start seconds x)))).
  { intros fuel start seconds x Hx.
    destruct (wait_loop_shape fuel start seconds x) as [k [new [_ [_ [X _]]]]].
    rewrite X. apply advance_le. lra. }
  split; [intros; rewrite wait_eq; now apply Hrun|].
  split.
  { intros a b seconds Hab. rewrite !wait_eq.
    replace b with (a + (b - a))%nat by lia. rewrite wait_loop_add.
    destruct (wait_loop_shape a (exec_time (self m)) seconds m)
      as [k [new [_ [_ [_ [P _]]]]]].
    destruct (wait_loop a (exec_time (self m)) seconds m) as [[| |] ma];
      cbn [snd] in *; try apply Qle_refl.
    apply Hrun. now rewrite P. }
  split.
  { destruct (poll_cases m) as [new [_ [C|[C|C]]]].
    - destruct C as [e [m' [-> [Hs _]]]]. cbn [snd]. rewrite Hs. apply Qle_refl.
    - destruct C as [e [m' [-> [Hs _]]]]. cbn [snd]. rewrite Hs. apply Qle_refl.
    - destruct C as [m' [-> [Hs _]]]. cbn [snd]. rewrite Hs. cbn. lra. }
  split; [now destruct (pre_command_frame m) as [-> _]|].
  split; [reflexivity|].
  split; [now destruct (silent_run_continuous_verifications m) as [-> _]|].
  intros e msg do_raise.
  now destruct (silent_handle e msg do_raise m) as [-> _].
Qed.

(** C3 (as the code has it). In a registry whose entries are all targets,
    when whatever the reads raise derives from [Exception], the reads of a
    poll never end it: [read_sb_packets] is invoked on every target that
    has a cFS interface, in registry order, whichever of them raise;
    verification then runs, and [pre_command] ends the way verification
    ends; when verification passes (and the period is not negative) the
    poll completes and [exec_time] advances by one period, so that the loop
    goes on to its next test. *)
Theorem read_failures_contained (m : machine World) :
  reads_raise_Exception_only (cfs_targets (self m)) ->
  exists mi,
    ingest m = (Ok tt, mi) /\
    reads (trace mi)
    = reads (trace m) ++ connected (values (cfs_targets (self m))) /\
    fst (pre_command m) = fst (run_continuous_verifications mi) /\
    (fst (run_continuous_verifications mi) = Ok tt ->
     ~ ctf_verification_poll_period (self m) < 0 ->
     exists m', poll m = (Ok tt, m') /\
                exec_time (self m')
                = exec_time (self m) + ctf_verification_poll_period (self m)).
Proof.
  intro H.
  destruct (read_targets_contained _ H (logged [CallPreCommand] m))
    as [mi [R T]].
  assert (Hi : ingest m = (Ok tt, mi)).
  { unfold ingest, bind, emit, TimeInterface_pre_command, ret, get_self.
    cbn [self]. exact R. }
  exists mi. split; [exact Hi|].
  split.
  { rewrite T. cbn [logged trace]. rewrite reads_app. cbn. now rewrite app_nil_r. }
  destruct (ingest_frame m) as [S1 _]. rewrite Hi in S1. cbn [snd] in S1.
  destruct (silent_run_continuous_verifications mi) as [S2 _].
  split.
  { rewrite pre_command_eq, Hi.
    destruct (run_continuous_verifications mi) as [[a|e] mv]; reflexivity. }
  intros Hv Hp. rewrite poll_eq, pre_command_eq, Hi.
  destruct (run_continuous_verifications mi) as [[[]|e] mv]; cbn in Hv;
    [|discriminate].
  cbn [snd] in S2. rewrite S2, S1.
  destruct (Qlt_bool (ctf_verification_poll_period (self m)) 0) eqn:Q.
  { apply Qlt_bool_iff in Q. contradiction. }
  eexists. split; [reflexivity|].
  cbn [ticked logged self exec_time]. now rewrite S2, S1.
Qed.

(** C4 (as the code has it). Seen through the hooks, a wait is a sequence
    of complete polls, [pre_command] then [post_command], possibly followed
    by one last [pre_command] without [post_command]; that last unmatched
    call only occurs when the wait ends by an exception.  [post_command]
    never comes before the [pre_command] of its poll. *)
Theorem hooks_paired_up_to_abort (fuel : nat) (seconds : Q) (m : machine World) :
  exists k new,
    trace (snd (wait fuel seconds m)) = trace m ++ new /\
    (hook_calls new = paired k \/
     (hook_calls new = paired k ++ [CallPreCommand] /\
      exists e, fst (wait fuel seconds m) = Raised e)).
Proof.
  rewrite wait_eq.
  destruct (wait_loop_shape fuel (exec_time (self m)) seconds m)
    as [k [new [_ [T [_ [_ [_ [_ H]]]]]]]].
  destruct (fst (wait_loop fuel (exec_time (self m)) seconds m)) as [|e|] eqn:E.
  - exists k, new. split; [exact T|]. now left.
  - destruct H as [H|H].
    + exists k, new. split; [exact T|]. right. split; [exact H|]. now exists e.
    + exists (S k), new. split; [exact T|]. now left.
  - exists k, new. split; [exact T|]. left. apply H.
Qed.

End Facts.

(** ** The claims on concrete targets *)

Import Scenario.
Local Open Scope string_scope.
Local Open Scope list_scope.

Lemma wait_poll_count_witness :
  let m := boot (1 # 10) [("a", Some (steady "A")); ("b", Some (steady "B"))] in
  let p := ctf_verification_poll_period (self m) in
  let n := Qceiling ((1 # 4) / p) in
  exists m' new,
    (forall fuel, (Z.to_nat n <= fuel)%nat -> wait fuel (1 # 4) m = (Returned, m')) /\
    exec_time (self m') == exec_time (self m) + inject_Z n * p /\
    trace m' = trace m ++ new /\
    hook_calls new = paired (Z.to_nat n) /\
    count is_sleep new = Z.to_nat n.
Proof.
  intro m. apply (wait_poll_count (1 # 4) m).
  - reflexivity.
  - reflexivity.
  - intros x [<-|[<-|[]]]; eexists; eexists; repeat split.
Defined.

Example wait_quarter_second :
  let r := wait 10 (1 # 4) (boot (1 # 10) [("a", Some (steady "A"))]) in
  fst r = Returned /\
  hook_calls (trace (snd r)) = paired 3 /\
  exec_time (self (snd r)) == 3 # 10.
Proof. repeat split. Qed.

Lemma condition_failure_aborts_witness :
  let m := boot (1 # 10) [("a", Some (failing_at "A" 1 condition_failed))] in
  let p := ctf_verification_poll_period (self m) in
  exists m' new,
    (forall fuel, (1 < fuel)%nat -> wait fuel (1 # 2) m = (Raised condition_failed, m')) /\
    exec_time (self m') = advance p 1 (exec_time (self m)) /\
    exec_time (self m') == exec_time (self m) + inject_Z (Z.of_nat 1) * p /\
    trace m' = trace m ++ new /\
    hook_calls new = paired 1 ++ [CallPreCommand] /\
    count is_sleep new = 1%nat.
Proof.
  intro m.
  apply (condition_failure_aborts 1 (1 # 2) m (snd (wait 1 (1 # 2) m)) condition_failed).
  - reflexivity.
  - exists (snd (ingest (snd (wait 1 (1 # 2) m)))).
    exists []. exists (failing_at "A" 1 condition_failed).
    eexists. exists []. eexists. eexists.
    repeat split.
  - reflexivity.
Defined.

Lemma test_error_aborts_witness :
  let m := boot (1 # 10) [("a", Some (steady "A"));
                          ("b", Some (failing_at "B" 2 bad_verification))] in
  let p := ctf_verification_poll_period (self m) in
  exists m' new earlier,
    (forall fuel, (2 < fuel)%nat -> wait fuel 1 m = (Raised bad_verification, m')) /\
    exec_time (self m') = advance p 2 (exec_time (self m)) /\
    trace m' = trace m ++ new /\
    new = earlier ++ [LogDebug bad_verification;
                      LogError "Error: CfsTimeManager: Pre-Command Failed";
                      LogDebug bad_verification] /\
    hook_calls new = paired 2 ++ [CallPreCommand] /\
    count is_sleep new = 2%nat.
Proof.
  intro m.
  apply (test_error_aborts 2 1 m (snd (wait 2 1 m)) bad_verification).
  - reflexivity.
  - exists (snd (ingest (snd (wait 2 1 m)))).
    exists [Some (steady "A")]. exists (failing_at "B" 2 bad_verification).
    eexists. exists []. eexists. eexists.
    repeat split.
  - reflexivity.
  - reflexivity.
Defined.

Lemma exec_time_monotone_witness :
  let m := boot (1 # 10) [("a", Some (failing_at "A" 3 condition_failed))] in
  (forall fuel seconds,
      exec_time (self m) <= exec_time (self (snd (wait fuel seconds m)))) /\
  (forall a b seconds, (a <= b)%nat ->
      exec_time (self (snd (wait a seconds m)))
      <= exec_time (self (snd (wait b seconds m)))) /\
  exec_time (self m) <= exec_time (self (snd (poll m))) /\
  exec_time (self (snd (pre_command m))) = exec_time (self m) /\
  exec_time (self (snd (post_command m))) = exec_time (self m) /\
  exec_time (self (snd (run_continuous_verifications m))) = exec_time (self m) /\
  (forall e msg do_raise,
      exec_time (self (snd (handle_test_exception_during_wait e msg do_raise m)))
      = exec_time (self m)).
Proof.
  intro m. apply (exec_time_monotone m). reflexivity.
Defined.

Lemma wait_nonpositive_witness :
  let m := boot (1 # 10) [("a", Some (steady "A"))] in
  wait 7 (- (1 # 2)) m = (Returned, m).
Proof.
  intro m. apply (wait_nonpositive 7 (- (1 # 2)) m).
  unfold Qle. simpl. lia.
Defined.

Lemma read_failures_contained_witness :
  let m := boot (1 # 10) [("a", Some (unreadable "A" socket_timeout));
                          ("b", Some (steady "B"))] in
  exists mi,
    ingest m = (Ok tt, mi) /\
    reads (trace mi)
    = reads (trace m) ++ connected (values (cfs_targets (self m))) /\
    fst (pre_command m) = fst (run_continuous_verifications mi) /\
    (fst (run_continuous_verifications mi) = Ok tt ->
     ~ ctf_verification_poll_period (self m) < 0 ->
     exists m', poll m = (Ok tt, m') /\
                exec_time (self m')
                = exec_time (self m) + ctf_verification_poll_period (self m)).
Proof.
  intro m. apply (read_failures_contained m).
  intros x [<-|[<-|[]]]; eexists; (split; [reflexivity|]);
    intros i w e w' Hc Hr; cbn in Hc; injection Hc as <-; cbn in Hr.
  - injection Hr as <- _. reflexivity.
  - discriminate.
Defined.

(** The spec example: the check fails in the second of five planned
    polls; polls three to five never run. *)
Example second_poll_fails :
  let r := wait 10 (1 # 2)
             (boot (1 # 10) [("a", Some (failing_at "A" 1 condition_failed))]) in
  fst r = Raised condition_failed /\
  hook_calls (trace (snd r)) = [CallPreCommand; CallPostCommand; CallPreCommand] /\
  count is_sleep (trace (snd r)) = 1%nat /\
  exec_time (self (snd r)) == 1 # 10.
Proof. repeat split. Qed.

(** The spec example: A's read fails on every poll, B is healthy; a wait of
    0.2 s completes after two polls with two error records for A. *)
Example one_deaf_target :
  let r := wait 10 (2 # 10)
             (boot (1 # 10) [("a", Some (unreadable "A" socket_timeout));
                             ("b", Some (steady "B"))]) in
  fst r = Returned /\
  hook_calls (trace (snd r)) = paired 2 /\
  reads (trace (snd r)) = ["A"; "B"; "A"; "B"] /\
  checks (trace (snd r)) = ["A"; "B"; "A"; "B"].
Proof. repeat split. Qed.

(** C3, as stated, fails: a [KeyboardInterrupt] raised by the read of A is
    not caught by [except Exception]; B is never read, no check runs, and
    the wait ends with the interrupt during its first poll. *)
Lemma interrupt_escapes_ingestion :
  let r := wait 10 (1 # 2)
             (boot (1 # 10) [("a", Some (unreadable "A" interrupt));
                             ("b", Some (steady "B"))]) in
  is_Exception interrupt = false /\
  fst r = Raised interrupt /\
  reads (trace (snd r)) = ["A"] /\
  checks (trace (snd r)) = [] /\
  count is_pre (trace (snd r)) = 1%nat /\
  count is_sleep (trace (snd r)) = 0%nat.
Proof. repeat split. Qed.

(** C4, as stated, fails: when the check of the first poll raises,
    [pre_command] has been called in that poll and [post_command] is not. *)
Lemma hooks_unpaired_on_abort :
  let r := wait 10 (1 # 2)
             (boot (1 # 10) [("a", Some (failing_at "A" 0 condition_failed))]) in
  fst r = Raised condition_failed /\
  hook_calls (trace (snd r)) = [CallPreCommand] /\
  count is_pre (trace (snd r)) = 1%nat /\
  count is_post (trace (snd r)) = 0%nat /\
  ~ (exists k, hook_calls (trace (snd r)) = paired k).
Proof.
  repeat split. intros [k H]. cbn in H.
  destruct k as [|k]; discriminate.
Qed.

(** An entry that is [None] ends the wait from inside the handler of the
    read loop, although the verification loop skips such entries. *)
Example none_entry_ends_wait :
  let r := wait 10 (1 # 2)
             (boot (1 # 10) [("a", None); ("b", Some (steady "B"))]) in
  fst r = Raised (no_attribute "config") /\
  reads (trace (snd r)) = [] /\
  hook_calls (trace (snd r)) = [CallPreCommand].
Proof. repeat split. Qed.

(** ** Further properties of the manager *)

Section Further.

Context {World : Type}.

(** *** Computations that emit only certain events *)

Lemma emits_only_ret {A} ok (a : A) : emits_only ok (ret a : @M World A).
Proof.
  intro m. split; [reflexivity|]. exists []. now rewrite app_nil_r.
Qed.

Lemma emits_only_raise {A} ok (e : exn) : emits_only ok (raise e : @M World A).
Proof.
  intro m. split; [reflexivity|]. exists []. now rewrite app_nil_r.
Qed.

Lemma emits_only_get_self ok : emits_only ok (get_self : @M World _).
Proof.
  intro m. split; [reflexivity|]. exists []. now rewrite app_nil_r.
Qed.

Lemma emits_only_emit (ok : event -> bool) (ev : event) :
  ok ev = true -> emits_only ok (emit ev : @M World unit).
Proof.
  intros H m. split; [reflexivity|]. exists [ev]. split; [reflexivity|].
  cbn. now rewrite H.
Qed.

Lemma emits_only_extern (ok : event -> bool) (ev : event)
  (op : World -> option exn * World) :
  ok ev = true -> emits_only ok (extern ev op).
Proof.
  intros H m. unfold extern. destruct (op (world m)) as [[e|] w]; cbn;
    (split; [reflexivity|]; exists [ev]; split; [reflexivity|];
     cbn; now rewrite H).
Qed.

Lemma emits_only_bind {A B} ok (c : @M World A) (k : A -> @M World B) :
  emits_only ok c -> (forall a, emits_only ok (k a)) -> emits_only ok (bind c k).
Proof.
  intros Hc Hk m. unfold bind.
  destruct (Hc m) as [Hs [new [Ht Hn]]].
  destruct (c m) as [[a|e] m1]; cbn [snd] in *.
  - destruct (Hk a m1) as [Hs' [new' [Ht' Hn']]].
    split; [congruence|]. exists (new ++ new'). split.
    + rewrite Ht', Ht. now rewrite app_assoc.
    + rewrite forallb_app, Hn, Hn'. reflexivity.
  - split; [assumption|]. exists new. now split.
Qed.

Lemma emits_only_try {A} ok (body : @M World A)
  (handler : exn -> option (@M World A)) :
  emits_only ok body -> (forall e h, handler e = Some h -> emits_only ok h) ->
  emits_only ok (try_except body handler).
Proof.
  intros Hb Hh m. unfold try_except.
  destruct (Hb m) as [Hs [new [Ht Hn]]].
  destruct (body m) as [[a|e] m1]; cbn [snd] in *.
  - split; [assumption|]. exists new. now split.
  - destruct (handler e) as [h|] eqn:E.
    + destruct (Hh e h E m1) as [Hs' [new' [Ht' Hn']]].
      split; [congruence|]. exists (new ++ new'). split.
      * rewrite Ht', Ht. now rewrite app_assoc.
      * rewrite forallb_app, Hn, Hn'. reflexivity.
    + cbn [snd]. split; [assumption|]. exists new. now split.
Qed.

Lemma read_targets_no_check (l : list (option (CfsController World))) :
  emits_only not_check (read_targets l).
Proof.
  induction l as [|x l IH]; cbn [read_targets].
  - apply emits_only_ret.
  - apply emits_only_bind; [|intros _; exact IH].
    unfold read_target. apply emits_only_try.
    + destruct x as [t|]; [|apply emits_only_raise].
      destruct (cfs t); [|apply emits_only_raise].
      now apply emits_only_extern.
    + intros e h E. destruct (is_Exception e); [|discriminate].
      injection E as <-.
      apply emits_only_bind.
      * unfold target_config_name.
        destruct x; [apply emits_only_ret | apply emits_only_raise].
      * intro n. apply emits_only_bind; [now apply emits_only_emit|].
        intros _. now apply emits_only_emit.
Qed.

Lemma check_targets_no_read (l : list (option (CfsController World))) :
  emits_only not_read (check_targets l).
Proof.
  induction l as [|x l IH]; cbn [check_targets].
  - apply emits_only_ret.
  - apply emits_only_bind; [|intros _; exact IH].
    unfold check_target. destruct x as [t|]; [|apply emits_only_ret].
    destruct (cfs t); [|apply emits_only_ret].
    now apply emits_only_extern.
Qed.

Lemma no_check_checks (l : list event) : forallb not_check l = true -> checks l = [].
Proof.
  induction l as [|ev l IH]; [reflexivity|].
  cbn [forallb]. rewrite andb_true_iff. intros [H1 H2].
  destruct ev; cbn in *; try discriminate; now apply IH.
Qed.

Lemma no_read_reads (l : list event) : forallb not_read l = true -> reads l = [].
Proof.
  induction l as [|ev l IH]; [reflexivity|].
  cbn [forallb]. rewrite andb_true_iff. intros [H1 H2].
  destruct ev; cbn in *; try discriminate; now apply IH.
Qed.

Lemma checks_app (a b : list event) : checks (a ++ b) = checks a ++ checks b.
Proof.
  induction a as [|ev a IH]; [reflexivity|].
  destruct ev; cbn [app checks]; now rewrite IH.
Qed.

(** Within a poll the telemetry of every target is read before any
    verification runs: the events of [pre_command] split into a first part
    without any check and a second part without any read. *)
Theorem reads_precede_checks (m : machine World) :
  exists ingestion verification,
    trace (snd (pre_command m))
    = trace m ++ CallPreCommand :: ingestion ++ verification /\
    checks ingestion = [] /\
    reads verification = [].
Proof.
  rewrite pre_command_eq.
  assert (Hi : ingest m
               = read_targets (values (cfs_targets (self m)))
                   (logged [CallPreCommand] m)) by reflexivity.
  destruct (read_targets_no_check (values (cfs_targets (self m)))
              (logged [CallPreCommand] m)) as [S1 [a [T1 N1]]].
  rewrite <- Hi in S1, T1. cbn [logged self trace] in S1, T1.
  destruct (ingest m) as [[[]|e] mi]; cbn [snd] in *.
  - pose proof (run_continuous_verifications_eq mi) as V.
    destruct (check_targets_no_read (values (cfs_targets (self mi))) mi)
      as [S2 [b [T2 N2]]].
    destruct (check_targets (values (cfs_targets (self mi))) mi)
      as [[[]|e] mc]; cbn [snd] in *; rewrite V; cbn [snd].
    + exists a, b. split; [|split; [now apply no_check_checks | now apply no_read_reads]].
      rewrite T2, T1, <- !app_assoc. reflexivity.
    + set (b1 := if is_CtfConditionError e
                 then [LogError "Test condition(s) failed in Post Command."] else []).
      set (b2 := if is_CtfConditionError e then []
                 else if is_CtfTestError e then [LogDebug e] else []).
      exists a, (b ++ b1 ++ b2).
      split; [|split; [now apply no_check_checks|]].
      * subst b1 b2. destruct (is_CtfConditionError e); [|destruct (is_CtfTestError e)];
          cbn [logged trace]; rewrite T2, T1, <- !app_assoc; cbn [app];
          rewrite ?app_nil_r; reflexivity.
      * rewrite !reads_app, (no_read_reads b N2). subst b1 b2.
        destruct (is_CtfConditionError e); [|destruct (is_CtfTestError e)]; reflexivity.
  - exists a, []. rewrite app_nil_r.
    split; [|split; [now apply no_check_checks | reflexivity]].
    rewrite T1, <- app_assoc. reflexivity.
Qed.

(** *** Verification *)

Lemma check_targets_pass (l : list (option (CfsController World))) :
  (forall t i, In (Some t) l -> cfs t = Some i ->
     forall w, fst (check_tlm_conditions i w) = None) ->
  forall m, exists m',
    check_targets l m = (Ok tt, m') /\
    checks (trace m') = checks (trace m) ++ connected l.
Proof.
  induction l as [|x l IH]; intros H m.
  - exists m. split; [reflexivity|]. now rewrite app_nil_r.
  - assert (H' : forall t i, In (Some t) l -> cfs t = Some i ->
                   forall w, fst (check_tlm_conditions i w) = None).
    { intros t i Ht. apply H. now right. }
    cbn [check_targets connected]. unfold bind, check_target.
    destruct x as [t|]; [|exact (IH H' m)].
    destruct (cfs t) as [i|] eqn:Hc; [|exact (IH H' m)].
    unfold extern.
    pose proof (H t i (or_introl eq_refl) Hc (world m)) as Hk.
    destruct (check_tlm_conditions i (world m)) as [r w]. cbn in Hk. subst r.
    match goal with
    | |- context [check_targets l ?m1] => destruct (IH H' m1) as [m' [R T]]
    end.
    exists m'. split; [exact R|].
    rewrite T. cbn [trace]. rewrite checks_app, <- app_assoc. reflexivity.
Qed.

(** Verification skips the entries it cannot check: when no check raises,
    [run_continuous_verifications] returns after calling
    [check_tlm_conditions] on exactly the targets that have a cFS interface,
    in registry order; entries that are [None] and targets without an
    interface are passed over without an error, and nothing is read. *)
Theorem verification_checks_connected (m : machine World) :
  checks_never_raise (cfs_targets (self m)) ->
  exists m',
    run_continuous_verifications m = (Ok tt, m') /\
    self m' = self m /\
    checks (trace m')
    = checks (trace m) ++ connected (values (cfs_targets (self m))) /\
    reads (trace m') = reads (trace m).
Proof.
  intro H.
  destruct (check_targets_pass _ H m) as [m' [R T]].
  destruct (check_targets_no_read (values (cfs_targets (self m))) m)
    as [S1 [b [T1 N1]]].
  rewrite R in S1, T1. cbn [snd] in S1, T1.
  exists m'. rewrite run_continuous_verifications_eq, R.
  repeat split; try assumption.
  rewrite T1, reads_app, (no_read_reads b N1). now rewrite app_nil_r.
Qed.

(** Verification is not isolated: the first check that raises ends it.
    The targets before it have been checked, those after it are not, and
    only a [CtfConditionError] leaves a log record. *)
Theorem verification_stops_at_first_failure (m : machine World)
  (before after : list (option (CfsController World)))
  (t : CfsController World) (i : CfsInterface World) (e : exn) :
  values (cfs_targets (self m)) = before ++ Some t :: after ->
  (forall t' i', In (Some t') before -> cfs t' = Some i' ->
     forall w, fst (check_tlm_conditions i' w) = None) ->
  cfs t = Some i ->
  (forall w, fst (check_tlm_conditions i w) = Some e) ->
  exists m' earlier,
    run_continuous_verifications m = (Raise e, m') /\
    checks (trace m')
    = checks (trace m) ++ connected before ++ [name (config t)] /\
    trace m'
    = earlier ++ CallCheckTlmConditions (name (config t))
        :: (if is_CtfConditionError e
            then [LogError "Test condition(s) failed in Post Command."]
            else []).
Proof.
  intros Hv Hb Hc He.
  destruct (check_targets_pass before Hb m) as [mc [R T]].
  rewrite run_continuous_verifications_eq, Hv, check_targets_app, R.
  cbn [check_targets]. unfold bind, check_target. rewrite Hc. unfold extern.
  pose proof (He (world mc)) as Hk.
  destruct (check_tlm_conditions i (world mc)) as [r w]. cbn in Hk. subst r.
  eexists. exists (trace mc). split; [reflexivity|].
  destruct (is_CtfConditionError e); cbn [logged trace]; split;
    rewrite ?checks_app, ?T, <- ?app_assoc; cbn; rewrite ?app_nil_r; reflexivity.
Qed.

(** *** Polls that cannot fail *)

Lemma poll_ok_self (m m1 : machine World) :
  poll m = (Ok tt, m1) ->
  self m1 = self (ticked m) /\
  exists n, forallb inner n = true /\
    trace m1 = trace m ++ CallPreCommand :: n
                 ++ [CallPostCommand; Sleep (ctf_verification_poll_period (self m))].
Proof.
  intro H. destruct (poll_cases m) as [n [Hn [C|[C|C]]]].
  - destruct C as [e [m' [Hp _]]]. congruence.
  - destruct C as [e [m' [Hp _]]]. congruence.
  - destruct C as [m' [Hp [Hs [Ht _]]]]. rewrite H in Hp. injection Hp as <-.
    split; [exact Hs|]. exists n. now split.
Qed.

Lemma poll_tolerable (m : machine World) :
  tolerable (cfs_targets (self m)) ->
  ~ ctf_verification_poll_period (self m) < 0 ->
  fst (poll m) = Ok tt.
Proof.
  intros [Hr Hk] Hp.
  destruct (read_targets_contained _ Hr (logged [CallPreCommand] m)) as [mi [R _]].
  assert (Hi : ingest m = (Ok tt, mi)) by exact R.
  destruct (ingest_frame m) as [S1 _]. rewrite Hi in S1. cbn [snd] in S1.
  assert (Hk' : checks_never_raise (cfs_targets (self mi))) by now rewrite S1.
  destruct (check_targets_pass _ Hk' mi) as [mc [C _]].
  destruct (silent_check_targets (values (cfs_targets (self mi))) mi) as [S2 _].
  rewrite C in S2. cbn [snd] in S2.
  rewrite poll_eq, pre_command_eq, Hi, run_continuous_verifications_eq, C, S2, S1.
  destruct (Qlt_bool (ctf_verification_poll_period (self m)) 0) eqn:Q; [|reflexivity].
  apply Qlt_bool_iff in Q. contradiction.
Qed.




(** *** Simulated time and time slept *)





(** A wait never touches the configuration of the manager: the registry
    and the poll period are the same after any wait, however it ends. *)
Theorem wait_keeps_configuration (fuel : nat) (seconds : Q) (m : machine World) :
  cfs_targets (self (snd (wait fuel seconds m))) = cfs_targets (self m) /\
  ctf_verification_poll_period (self (snd (wait fuel seconds m)))
  = ctf_verification_poll_period (self m).
Proof.
  rewrite wait_eq.
  destruct (wait_loop_shape fuel (exec_time (self m)) seconds m)
    as [k [new [_ [_ [_ [P [R _]]]]]]].
  now split.
Qed.



(** *** Degenerate poll periods *)

Lemma returned_test (fuel : nat) (start seconds : Q) (m m' : machine World) :
  wait_loop fuel start seconds m = (Returned, m') ->
  Qlt_bool (exec_time (self m')) (start + seconds) = false.
Proof.
  revert m. induction fuel as [|fuel IH]; intro m; cbn [wait_loop];
    destruct (Qlt_bool (exec_time (self m)) (start + seconds)) eqn:E;
    try discriminate.
  - intro H. now injection H as <-.
  - destruct (poll m) as [[[]|e] m1]; [apply IH | discriminate].
  - intro H. now injection H as <-.
Qed.

Lemma wait_loop_never_raises (fuel : nat) (start seconds : Q) (m : machine World) :
  tolerable (cfs_targets (self m)) ->
  ~ ctf_verification_poll_period (self m) < 0 ->
  forall e, fst (wait_loop fuel start seconds m) <> Raised e.
Proof.
  revert m. induction fuel as [|fuel IH]; intros m Hq Hp e; cbn [wait_loop];
    destruct (Qlt_bool (exec_time (self m)) (start + seconds)); try discriminate.
  pose proof (poll_tolerable m Hq Hp) as Hok.
  destruct (poll m) as [[[]|e'] m1] eqn:Hpoll; cbn in Hok; [|discriminate].
  destruct (poll_ok_self m m1 Hpoll) as [Hs _].
  apply IH; rewrite Hs; assumption.
Qed.

(** A poll period of zero makes a wait of positive length endless: the
    clock does not move, so the wait never returns; on targets whose polls
    cannot fail it keeps polling for as long as it is run. *)
Theorem zero_period_never_returns (seconds : Q) (m : machine World) :
  ctf_verification_poll_period (self m) == 0 ->
  0 < seconds ->
  (forall fuel, fst (wait fuel seconds m) <> Returned) /\
  (tolerable (cfs_targets (self m)) ->
   forall fuel, exists m' new,
     wait fuel seconds m = (OutOfFuel, m') /\
     trace m' = trace m ++ new /\
     hook_calls new = paired fuel /\
     exec_time (self m') == exec_time (self m)).
Proof.
  intros Hz Hs.
  assert (Hnr : forall fuel, fst (wait fuel seconds m) <> Returned).
  { intros fuel. rewrite wait_eq.
    destruct (wait_loop fuel (exec_time (self m)) seconds m) as [o m'] eqn:W.
    cbn [fst]. intros ->.
    pose proof (returned_test _ _ _ _ _ W) as T. apply Qlt_bool_false_iff in T.
    destruct (wait_loop_shape fuel (exec_time (self m)) seconds m)
      as [k [new [_ [_ [X _]]]]].
    rewrite W in X. cbn [snd] in X. rewrite X, advance_eq, Hz in T. lra. }
  split; [exact Hnr|].
  intros Hq fuel. specialize (Hnr fuel). rewrite wait_eq in *.
  assert (Hp : ~ ctf_verification_poll_period (self m) < 0) by (rewrite Hz; lra).
  pose proof (wait_loop_never_raises fuel (exec_time (self m)) seconds m Hq Hp) as Hne.
  destruct (wait_loop_shape fuel (exec_time (self m)) seconds m)
    as [k [new [_ [T [X [_ [_ [_ H]]]]]]]].
  destruct (wait_loop fuel (exec_time (self m)) seconds m) as [[|e|] m'];
    cbn [fst snd] in *; [congruence | now destruct (Hne e) |].
  destruct H as [H ->].
  exists m', new. repeat split; try assumption.
  rewrite X, advance_eq, Hz. ring.
Qed.

(** A negative poll period is refused by [time.sleep]: a wait of positive
    length whose first [pre_command] goes through runs [post_command] and
    then ends with the [ValueError] of the sleep, without sleeping and with
    [exec_time] unchanged. *)
Theorem negative_period_is_rejected (seconds : Q) (m : machine World) :
  ctf_verification_poll_period (self m) < 0 ->
  0 < seconds ->
  fst (pre_command m) = Ok tt ->
  exists m' new,
    (forall fuel, (0 < fuel)%nat ->
       wait fuel seconds m
       = (Raised (Exn ValueError "sleep length must be non-negative"), m')) /\
    self m' = self m /\
    trace m' = trace m ++ new /\
    hook_calls new = paired 1 /\
    count is_sleep new = O.
Proof.
  intros Hp Hs Hok.
  destruct (pre_command_frame m) as [S1 [n [T1 N1]]].
  destruct (pre_command m) as [[[]|e] m1] eqn:Hpre; cbn in Hok; [|discriminate].
  cbn [snd] in S1, T1.
  assert (Hpoll : poll m
                  = (Raise (Exn ValueError "sleep length must be non-negative"),
                     logged [CallPostCommand] m1)).
  { rewrite poll_eq, Hpre, S1.
    apply Qlt_bool_iff in Hp. now rewrite Hp. }
  exists (logged [CallPostCommand] m1), (CallPreCommand :: n ++ [CallPostCommand]).
  split.
  { intros [|fuel] Hf; [lia|]. rewrite wait_eq. cbn [wait_loop].
    assert (E : Qlt_bool (exec_time (self m)) (exec_time (self m) + seconds) = true)
      by (apply Qlt_bool_iff; lra).
    now rewrite E, Hpoll. }
  split; [exact S1|].
  split; [cbn [logged trace]; rewrite T1, <- app_assoc; reflexivity|].
  change (CallPreCommand :: n ++ [CallPostCommand])
    with ([CallPreCommand] ++ n ++ [CallPostCommand]).
  split.
  - rewrite !hook_calls_app, (inner_hook_calls n N1). reflexivity.
  - rewrite !count_app, (inner_sleeps n N1). reflexivity.
Qed.

(** *** Entries that are [None] *)

Lemma read_targets_app (a b : list (option (CfsController World)))
  (m : machine World) :
  read_targets (a ++ b) m
  = match read_targets a m with
    | (Ok _, m1) => read_targets b m1
    | (Raise e, m1) => (Raise e, m1)
    end.
Proof.
  revert m. induction a as [|x a IH]; intro m; [reflexivity|].
  cbn [app read_targets]. unfold bind.
  destruct (read_target x m) as [[[]|e] m1]; [apply IH | reflexivity].
Qed.

(** An entry of the registry that is [None] makes every wait of positive
    length fail in its first poll: the targets before the entry are read,
    then the handler of the read loop itself raises an [AttributeError]
    (it asks the entry for its name), which nothing catches; no target after
    the entry is read, no check runs, [post_command] is not called and
    [exec_time] stays as it was. *)
Theorem none_entry_aborts_wait (seconds : Q) (m : machine World)
  (before after : list (option (CfsController World))) :
  values (cfs_targets (self m)) = before ++ None :: after ->
  (forall x, In x before ->
     exists t, x = Some t /\
       forall i w e w', cfs t = Some i -> read_sb_packets i w = (Some e, w') ->
         is_Exception e = true) ->
  0 < seconds ->
  exists m' new,
    (forall fuel, (0 < fuel)%nat ->
       wait fuel seconds m = (Raised (no_attribute "config"), m')) /\
    self m' = self m /\
    trace m' = trace m ++ new /\
    reads new = connected before /\
    checks new = [] /\
    hook_calls new = [CallPreCommand].
Proof.
  intros Hv Hb Hs.
  destruct (read_targets_contained before Hb (logged [CallPreCommand] m))
    as [mb [R T]].
  assert (Hi : ingest m = (Raise (no_attribute "config"), mb)).
  { change (ingest m) with (read_targets (values (cfs_targets (self m)))
                              (logged [CallPreCommand] m)).
    rewrite Hv, read_targets_app, R. reflexivity. }
  assert (Hpoll : poll m = (Raise (no_attribute "config"), mb)).
  { rewrite poll_eq, pre_command_eq, Hi. reflexivity. }
  destruct (ingest_frame m) as [S1 [n [T1 N1]]].
  rewrite Hi in S1, T1. cbn [snd] in S1, T1.
  destruct (read_targets_no_check before (logged [CallPreCommand] m))
    as [_ [a [Ta Na]]].
  rewrite R in Ta. cbn [snd logged trace] in Ta.
  assert (Hn : a = n).
  { rewrite T1 in Ta.
    change (trace m ++ CallPreCommand :: n)
      with (trace m ++ [CallPreCommand] ++ n) in Ta.
    rewrite app_assoc in Ta. now apply app_inv_head in Ta. }
  subst a.
  exists mb, (CallPreCommand :: n).
  split.
  { intros [|fuel] Hf; [lia|]. rewrite wait_eq. cbn [wait_loop].
    assert (E : Qlt_bool (exec_time (self m)) (exec_time (self m) + seconds) = true)
      by (apply Qlt_bool_iff; lra).
    now rewrite E, Hpoll. }
  split; [exact S1|]. split; [exact T1|].
  split.
  { rewrite T1 in T. cbn [logged trace] in T.
    rewrite !reads_app in T. cbn [reads app] in T.
    rewrite app_nil_r in T. apply app_inv_head in T. exact T. }
  split.
  { cbn [checks]. now apply no_check_checks. }
  unfold hook_calls. cbn [filter is_hook]. f_equal. now apply inner_hook_calls.
Qed.

(** *** Exceptions raised by checks *)

Lemma poll_check_raises_trace (m : machine World) (e : exn) :
  check_raises m e ->
  exists mx earlier (t : CfsController World),
    self mx = self m /\
    trace mx = trace m ++ CallPreCommand :: earlier
                 ++ [CallCheckTlmConditions (name (config t))] /\
    forallb inner earlier = true /\
    poll m
    = (Raise e,
       let m1 :=
         if is_CtfConditionError e
         then logged [LogError "Test condition(s) failed in Post Command."] mx
         else if is_CtfTestError e then logged [LogDebug e] mx else mx in
       if is_CtfTestError e
       then logged [LogError "Error: CfsTimeManager: Pre-Command Failed"; LogDebug e] m1
       else m1).
Proof.
  intros [mi [before [t [i [after [mc [w [Hi [Hv [Hc [Hb Hk]]]]]]]]]]].
  destruct (ingest_frame m) as [S1 [n1 [T1 I1]]]. rewrite Hi in S1, T1. cbn [snd] in *.
  destruct (silent_check_targets before mi) as [S2 [n2 [T2 I2]]].
  rewrite Hb in S2, T2. cbn [snd] in *.
  set (ev := CallCheckTlmConditions (name (config t))).
  exists {| self := self mc; world := w; trace := trace mc ++ [ev] |}, (n1 ++ n2), t.
  split; [cbn [self]; congruence|].
  split; [cbn [trace]; rewrite T2, T1, <- !app_assoc; reflexivity|].
  split; [now rewrite forallb_app, I1, I2|].
  assert (V : run_continuous_verifications mi
              = (Raise e,
                 if is_CtfConditionError e
                 then logged [LogError "Test condition(s) failed in Post Command."]
                        {| self := self mc; world := w; trace := trace mc ++ [ev] |}
                 else {| self := self mc; world := w; trace := trace mc ++ [ev] |})).
  { rewrite run_continuous_verifications_eq, S1, Hv, check_targets_app, Hb.
    cbn [check_targets]. unfold bind, check_target. rewrite Hc.
    unfold extern. rewrite Hk. reflexivity. }
  rewrite poll_eq, pre_command_eq, Hi, V.
  destruct (is_CtfConditionError e) eqn:Ec.
  - rewrite (condition_error_is_test_error e Ec). reflexivity.
  - destruct (is_CtfTestError e); reflexivity.
Qed.

(** Whatever a check raises ends the wait, not only the two test error
    classes: when the first [k] polls complete and a check then raises [e],
    the wait ends with [e], [exec_time] stands at [k] increments and no
    further poll starts.  An exception that is not a [CtfTestError] passes
    through all handlers without a log record: the call of the check is the
    last event of the wait. *)
Theorem any_check_failure_aborts (k : nat) (seconds : Q) (m mk : machine World)
  (e : exn) :
  wait k seconds m = (OutOfFuel, mk) ->
  check_raises mk e ->
  exists m' new,
    (forall fuel, (k < fuel)%nat -> wait fuel seconds m = (Raised e, m')) /\
    exec_time (self m')
    = advance (ctf_verification_poll_period (self m)) k (exec_time (self m)) /\
    trace m' = trace m ++ new /\
    hook_calls new = paired k ++ [CallPreCommand] /\
    count is_sleep new = k /\
    (is_CtfTestError e = false ->
     exists earlier n, new = earlier ++ [CallCheckTlmConditions n]).
Proof.
  intros Hk Hc.
  destruct (poll_check_raises_trace mk e Hc) as [mx [n [t [Sx [Tx [In Hp]]]]]].
  pose proof (wait_loop_shape k (exec_time (self m)) seconds m) as Sh.
  rewrite <- wait_eq, Hk in Sh. cbn [fst snd] in Sh.
  destruct Sh as [k' [new [_ [T [X [_ [_ [Cs [Hh ->]]]]]]]]].
  set (ev := CallCheckTlmConditions (name (config t))) in *.
  set (l1 := if is_CtfConditionError e
             then [LogError "Test condition(s) failed in Post Command."]
             else if is_CtfTestError e then [LogDebug e] else []).
  set (l2 := if is_CtfTestError e
             then [LogError "Error: CfsTimeManager: Pre-Command Failed"; LogDebug e]
             else []).
  assert (Hl : forallb inner (l1 ++ l2) = true).
  { subst l1 l2. destruct (is_CtfConditionError e); destruct (is_CtfTestError e);
      reflexivity. }
  assert (Hm : exists m',
             poll mk = (Raise e, m') /\ self m' = self mk /\
             trace m' = trace mk ++ CallPreCommand :: n ++ [ev] ++ l1 ++ l2).
  { eexists. split; [exact Hp|]. cbv zeta. subst l1 l2.
    destruct (is_CtfConditionError e); destruct (is_CtfTestError e);
      cbn [logged self trace]; (split; [exact Sx|]);
      rewrite Tx, <- ?app_assoc; cbn [app]; rewrite ?app_nil_r;
      repeat (rewrite <- app_assoc; cbn [app]); reflexivity. }
  destruct Hm as [m' [Hpoll [Sm Tm]]].
  exists m', (new ++ CallPreCommand :: n ++ [ev] ++ l1 ++ l2).
  split; [exact (wait_aborts k seconds m mk m' e Hk Hpoll)|].
  split; [rewrite Sm; exact X|].
  split; [rewrite Tm, T, <- app_assoc; reflexivity|].
  change (CallPreCommand :: n ++ [ev] ++ l1 ++ l2)
    with ([CallPreCommand] ++ n ++ [ev] ++ l1 ++ l2).
  split.
  { rewrite !hook_calls_app, (inner_hook_calls n In).
    rewrite <- hook_calls_app, (inner_hook_calls _ Hl), Hh. reflexivity. }
  split.
  { rewrite !count_app, (inner_sleeps n In).
    rewrite <- count_app, (inner_sleeps _ Hl), Cs. cbn. lia. }
  intro Hnt. exists (new ++ [CallPreCommand] ++ n), (name (config t)).
  subst l1 l2. rewrite Hnt.
  assert (Hnc : is_CtfConditionError e = false).
  { destruct (is_CtfConditionError e) eqn:Ec; [|reflexivity].
    rewrite (condition_error_is_test_error e Ec) in Hnt. discriminate. }
  rewrite Hnc. cbn [app]. rewrite <- !app_assoc. reflexivity.
Qed.

Lemma check_targets_raise_origin (l : list (option (CfsController World))) :
  forall (m m' : machine World) (e : exn),
    check_targets l m = (Raise e, m') ->
    exists before t i after mc w,
      l = before ++ Some t :: after /\
      cfs t = Some i /\
      check_targets before m = (Ok tt, mc) /\
      check_tlm_conditions i (world mc) = (Some e, w).
Proof.
  induction l as [|x l IH]; intros m m' e H; [discriminate|].
  cbn [check_targets] in H. unfold bind in H.
  destruct (check_target x m) as [[[]|e0] m1] eqn:Hx.
  - destruct (IH m1 m' e H) as [before [t [i [after [mc [w [-> [Hc [Hb Hk]]]]]]]]].
    exists (x :: before), t, i, after, mc, w.
    repeat split; try assumption.
    cbn [check_targets]. unfold bind. now rewrite Hx.
  - injection H as -> _.
    unfold check_target in Hx.
    destruct x as [t|]; [|discriminate].
    destruct (cfs t) as [i|] eqn:Hc; [|discriminate].
    unfold extern in Hx.
    destruct (check_tlm_conditions i (world m)) as [[e1|] w] eqn:Hk; [|discriminate].
    injection Hx as -> _.
    exists [], t, i, l, m, w. repeat split; assumption.
Qed.

Lemma poll_raise_origin (m m' : machine World) (e : exn) :
  reads_raise_Exception_only (cfs_targets (self m)) ->
  ~ ctf_verification_poll_period (self m) < 0 ->
  poll m = (Raise e, m') ->
  check_raises m e.
Proof.
  intros Hr Hp H.
  destruct (read_targets_contained _ Hr (logged [CallPreCommand] m)) as [mi [R _]].
  assert (Hi : ingest m = (Ok tt, mi)) by exact R.
  destruct (ingest_frame m) as [S1 _]. rewrite Hi in S1. cbn [snd] in S1.
  rewrite poll_eq, pre_command_eq, Hi, run_continuous_verifications_eq in H.
  destruct (check_targets (values (cfs_targets (self mi))) mi)
    as [[[]|e0] mc] eqn:Hc.
  - pose proof (silent_check_targets (values (cfs_targets (self mi))) mi) as [S2 _].
    rewrite Hc in S2. cbn [snd] in S2. rewrite S2, S1 in H.
    destruct (Qlt_bool (ctf_verification_poll_period (self m)) 0) eqn:Q;
      [|discriminate].
    apply Qlt_bool_iff in Q. contradiction.
  - injection H as -> _.
    rewrite S1 in Hc.
    destruct (check_targets_raise_origin _ _ _ _ Hc)
      as [before [t [i [after [mc' [w [Hv [Hcf [Hb Hk]]]]]]]]].
    exists mi, before, t, i, after, mc', w. repeat split; assumption.
Qed.

Lemma wait_loop_raise_origin (fuel : nat) (start seconds : Q) :
  forall (m m' : machine World) (e : exn),
    reads_raise_Exception_only (cfs_targets (self m)) ->
    ~ ctf_verification_poll_period (self m) < 0 ->
    wait_loop fuel start seconds m = (Raised e, m') ->
    exists k mk,
      (k < fuel)%nat /\
      wait_loop k start seconds m = (OutOfFuel, mk) /\
      check_raises mk e.
Proof.
  induction fuel as [|fuel IH]; intros m m' e Hr Hp; cbn [wait_loop];
    destruct (Qlt_bool (exec_time (self m)) (start + seconds)) eqn:E;
    try discriminate.
  destruct (poll m) as [[[]|e0] m1] eqn:Hpoll.
  - destruct (poll_ok_self m m1 Hpoll) as [Hs _]. intro H.
    destruct (IH m1 m' e) as [k [mk [Hk [W C]]]]; try (rewrite Hs; assumption);
      [exact H|].
    exists (S k), mk. split; [lia|]. split; [|exact C].
    cbn [wait_loop]. now rewrite E, Hpoll.
  - intro H. injection H as -> _.
    exists O, m. split; [lia|]. split.
    + cbn [wait_loop]. now rewrite E.
    + exact (poll_raise_origin m m1 e Hr Hp Hpoll).
Qed.

(** With a registry whose entries are all targets, reads that raise
    nothing outside [Exception] and a poll period that is not negative, a
    check is the only thing that can end a wait early: whenever a wait ends
    with an exception, some number [k] of polls completed before and the
    exception was raised by the check of a target in the poll after
    them. *)
Theorem abort_comes_from_a_check (fuel : nat) (seconds : Q)
  (m m' : machine World) (e : exn) :
  reads_raise_Exception_only (cfs_targets (self m)) ->
  ~ ctf_verification_poll_period (self m) < 0 ->
  wait fuel seconds m = (Raised e, m') ->
  exists k mk,
    (k < fuel)%nat /\
    wait k seconds m = (OutOfFuel, mk) /\
    check_raises mk e.
Proof.
  intros Hr Hp H. rewrite wait_eq in H.
  destruct (wait_loop_raise_origin _ _ _ _ _ _ Hr Hp H) as [k [mk [Hk [W C]]]].
  exists k, mk. rewrite wait_eq. now repeat split.
Qed.

End Further.

(** ** The further properties on concrete targets *)


Lemma verification_checks_connected_witness :
  let m := boot (1 # 10) [("a", Some (steady "A")); ("n", None);
                          ("d", Some (disconnected "D")); ("b", Some (steady "B"))] in
  exists m',
    run_continuous_verifications m = (Ok tt, m') /\
    self m' = self m /\
    checks (trace m')
    = checks (trace m) ++ connected (values (cfs_targets (self m))) /\
    reads (trace m') = reads (trace m).
Proof.
  intro m. apply (verification_checks_connected m).
  intros t i [H|[H|[H|[H|[]]]]] Hc w; cbn in H; try discriminate;
    injection H as <-; cbn in Hc; try discriminate; injection Hc as <-; reflexivity.
Defined.

Lemma verification_stops_at_first_failure_witness :
  let t := rejecting "B" bad_verification in
  let m := boot (1 # 10) [("a", Some (steady "A")); ("b", Some t);
                          ("c", Some (steady "C"))] in
  exists m' earlier,
    run_continuous_verifications m = (Raise bad_verification, m') /\
    checks (trace m')
    = checks (trace m) ++ connected [Some (steady "A")] ++ [name (config t)] /\
    trace m'
    = earlier ++ CallCheckTlmConditions (name (config t))
        :: (if is_CtfConditionError bad_verification
            then [LogError "Test condition(s) failed in Post Command."]
            else []).
Proof.
  intros t m.
  apply (verification_stops_at_first_failure m [Some (steady "A")]
           [Some (steady "C")] t
           {| read_sb_packets := quiet_read;
              check_tlm_conditions := fun w => (Some bad_verification, w) |}
           bad_verification).
  - reflexivity.
  - intros t' i' [H|[]] Hc w. injection H as <-. cbn in Hc.
    injection Hc as <-. reflexivity.
  - reflexivity.
  - reflexivity.
Defined.


Example rough_registry_run :
  let r := wait 10 (1 # 4) (boot (1 # 10) rough_registry) in
  fst r = Returned /\
  reads (trace (snd r)) = ["A"; "F"; "B"; "A"; "F"; "B"; "A"; "F"; "B"] /\
  count (fun ev => match ev with LogError _ => true | _ => false end)
    (trace (snd r)) = 7%nat.
Proof. repeat split. Qed.


(** Two waits of 0.25 s take six polls, one wait of 0.5 s takes five. *)
Example split_wait_costs_a_poll :
  let m := boot (1 # 10) [("a", Some (steady "A"))] in
  count is_pre (trace (snd (wait 10 (1 # 4) (snd (wait 10 (1 # 4) m))))) = 6%nat /\
  count is_pre (trace (snd (wait 10 (1 # 2) m))) = 5%nat.
Proof. split; reflexivity. Qed.


Lemma zero_period_never_returns_witness :
  let m := boot 0 rough_registry in
  (forall fuel, fst (wait fuel (1 # 4) m) <> Returned) /\
  (tolerable (cfs_targets (self m)) ->
   forall fuel, exists m' new,
     wait fuel (1 # 4) m = (OutOfFuel, m') /\
     trace m' = trace m ++ new /\
     hook_calls new = paired fuel /\
     exec_time (self m') == exec_time (self m)).
Proof.
  intro m. apply (zero_period_never_returns (1 # 4) m); reflexivity.
Defined.

Lemma negative_period_is_rejected_witness :
  let m := boot (- (1 # 10)) rough_registry in
  exists m' new,
    (forall fuel, (0 < fuel)%nat ->
       wait fuel (1 # 4) m
       = (Raised (Exn ValueError "sleep length must be non-negative"), m')) /\
    self m' = self m /\
    trace m' = trace m ++ new /\
    hook_calls new = paired 1 /\
    count is_sleep new = O.
Proof.
  intro m. apply (negative_period_is_rejected (1 # 4) m); reflexivity.
Defined.

Lemma none_entry_aborts_wait_witness :
  let m := boot (1 # 10) [("a", Some (unreadable "A" socket_timeout)); ("n", None);
                          ("b", Some (steady "B"))] in
  exists m' new,
    (forall fuel, (0 < fuel)%nat ->
       wait fuel (1 # 4) m = (Raised (no_attribute "config"), m')) /\
    self m' = self m /\
    trace m' = trace m ++ new /\
    reads new = connected [Some (unreadable "A" socket_timeout)] /\
    checks new = [] /\
    hook_calls new = [CallPreCommand].
Proof.
  intro m.
  apply (none_entry_aborts_wait (1 # 4) m [Some (unreadable "A" socket_timeout)]
           [Some (steady "B")]).
  - reflexivity.
  - intros x [<-|[]]. eexists. split; [reflexivity|].
    intros i w e w' Hc Hr. cbn in Hc. injection Hc as <-. cbn in Hr.
    now injection Hr as <- _.
  - reflexivity.
Defined.

Lemma any_check_failure_aborts_witness :
  let m := boot (1 # 10) [("a", Some (failing_at "A" 1 socket_timeout))] in
  exists m' new,
    (forall fuel, (1 < fuel)%nat -> wait fuel (1 # 2) m = (Raised socket_timeout, m')) /\
    exec_time (self m')
    = advance (ctf_verification_poll_period (self m)) 1 (exec_time (self m)) /\
    trace m' = trace m ++ new /\
    hook_calls new = paired 1 ++ [CallPreCommand] /\
    count is_sleep new = 1%nat /\
    (is_CtfTestError socket_timeout = false ->
     exists earlier n, new = earlier ++ [CallCheckTlmConditions n]).
Proof.
  intro m.
  apply (any_check_failure_aborts 1 (1 # 2) m (snd (wait 1 (1 # 2) m)) socket_timeout).
  - reflexivity.
  - exists (snd (ingest (snd (wait 1 (1 # 2) m)))).
    exists []. exists (failing_at "A" 1 socket_timeout).
    eexists. exists []. eexists. eexists.
    repeat split.
Defined.

Lemma abort_comes_from_a_check_witness :
  let m := boot (1 # 10) [("a", Some (unreadable "A" socket_timeout));
                          ("b", Some (failing_at "B" 1 condition_failed))] in
  exists k mk,
    (k < 5)%nat /\
    wait k (1 # 2) m = (OutOfFuel, mk) /\
    check_raises mk condition_failed.
Proof.
  intro m.
  apply (abort_comes_from_a_check 5 (1 # 2) m (snd (wait 5 (1 # 2) m)) condition_failed).
  - intros x [<-|[<-|[]]]; eexists; (split; [reflexivity|]);
      intros i w e w' Hc Hr; cbn in Hc; injection Hc as <-; cbn in Hr;
      [now injection Hr as <- _ | discriminate].
  - intro H. discriminate H.
  - reflexivity.
Defined.

End TimeManagerFacts.
